(** * n8n-mobile: the list and detail hooks, embedded and checked

    The development embeds the view-state hooks of the application
    ([useExecutions], [useExecution] from [src/hooks/useExecutions.ts],
    [useWorkflows] and the client object [n8nApi]) and states the
    properties of the pagination and mutation logic over them.  It goes
    on with the code around them: [useWorkflow], the theme provider,
    the credentials of [n8nApi], [N8nClient] and its provider,
    [useN8nConnection], and two formatting helpers of the screens.

    Conventions of the embedding.
    - A hook instance is its tuple of [useState] cells, a record.
    - A setter call is a state transformer; a callback body is a sequence
      of setter calls, written in a small state monad ([Hook]).
    - An [async] callback is split at its [await]: the part that runs when
      the callback is called (it may leave a request in flight) and the
      part that runs when the request settles.  The second part receives
      what the callback captured when it was called and the settled
      value, either a thrown value or a response.
    - A callback reads the state cells through the closure of the render
      that created it.  That render is an explicit argument, [view]; the
      setters act on the current cells.  After a render, [view] is the
      current state. *)

From Stdlib Require Import Ascii.
From stdpp Require Import base option list strings numbers gmap pretty.

Open Scope string_scope.
Open Scope list_scope.

(** ** JavaScript values the hooks inspect *)

Module Js.

(** [!!s] and [if (s)] for [s : string | undefined]: absent and the
    empty string are falsy. *)
Definition truthy (s : option string) : bool :=
  match s with
  | Some s => negb (String.eqb s "")
  | None => false
  end.

(** What a rejected request throws.  The hooks inspect it in two ways:
    [axios.isAxiosError(err)] and [err instanceof Error]. *)
Inductive Thrown :=
| AxiosError (responseMessage : option string) (message : string)
| PlainError (message : string)
| NotAnError.

(** [a || b] on strings. *)
Definition or_else (a : option string) (b : string) : string :=
  match a with
  | Some s => if truthy a then s else b
  | None => b
  end.

(** [axios.isAxiosError(err) ? err.response?.data?.message || err.message : fallback] *)
Definition axiosMessage (fallback : string) (err : Thrown) : string :=
  match err with
  | AxiosError resp msg => or_else resp msg
  | PlainError _ | NotAnError => fallback
  end.

(** [err instanceof Error ? err.message : fallback] *)
Definition errorMessage (fallback : string) (err : Thrown) : string :=
  match err with
  | AxiosError _ msg | PlainError msg => msg
  | NotAnError => fallback
  end.

(** The settled value of an awaited promise. *)
Definition Settled (A : Type) : Type := Thrown + A.

(** The body of [getClient], the same in [useExecutions] and
    [useExecution]: the given client, or one built from [baseUrl] and
    [apiKey]; it throws when neither is there. *)
Definition getClientWith (apiClient : bool) (baseUrl apiKey : option string)
  : Settled unit :=
  if apiClient then inr tt
  else if negb (truthy baseUrl) || negb (truthy apiKey)
       then inl (PlainError "Either apiClient or baseUrl and apiKey must be provided")
       else inr tt.

End Js.

(** ** The state monad of a callback body *)

Definition Hook (S A : Type) : Type := S → A * S.

Definition hook_ret {S A} (a : A) : Hook S A := λ s, (a, s).

Definition hook_bind {S A B} (m : Hook S A) (k : A → Hook S B) : Hook S B :=
  λ s, let '(a, s') := m s in k a s'.

Definition exec {S A} (m : Hook S A) (s : S) : S := (m s).2.
Definition eval {S A} (m : Hook S A) (s : S) : A := (m s).1.

Declare Scope hook_scope.
Delimit Scope hook_scope with hook.
Notation "x <- m ;; k" := (hook_bind m (λ x, k))
  (at level 100, m at next level, right associativity) : hook_scope.
Notation "m ;; k" := (hook_bind m (λ _, k))
  (at level 100, right associativity) : hook_scope.
Open Scope hook_scope.

(** ** [useExecutions]: the executions list controller *)

Module UseExecutions.
Import Js.

Inductive ExecutionStatus :=
| canceled | error_ | running | success | waiting | crashed | new | unknown.

Global Instance ExecutionStatus_eq_dec : EqDecision ExecutionStatus.
Proof. solve_decision. Defined.

(** The fields of [Execution] the hooks and the screens read. *)
Record Execution := {
  id : string;
  finished : bool;
  retryOf : option string;
  workflowId : string;
  status : ExecutionStatus;
}.

Record ExecutionListResponse := {
  data : list Execution;
  nextCursor : option string;
  numberOfTotalRecords : option nat;
}.

Record GetExecutionsQuery := {
  q_limit : nat;
  q_cursor : option string;
  q_status : option ExecutionStatus;
  q_workflowId : option string;
}.

(** [UseExecutionsOptions] *)
Record Options := {
  apiClient : bool;
  baseUrl : option string;
  apiKey : option string;
  initialLimit : nat;
}.

(** The [useState] cells, in declaration order. *)
Record State := {
  executions : list Execution;
  loading : bool;
  refreshing : bool;
  error : option string;
  hasMore : bool;
  totalRecords : nat;
  cursor : option string;
  statusFilter : option ExecutionStatus;
  workflowFilter : option string;
}.

Definition initial : State := {|
  executions := [];
  loading := true;
  refreshing := false;
  error := None;
  hasMore := true;
  totalRecords := 0;
  cursor := None;
  statusFilter := None;
  workflowFilter := None;
|}.

(** [setExecutions] is called with a value and with an updater
    [prev => ...]; the updater form covers both. *)
Definition setExecutions (f : list Execution → list Execution) : Hook State unit :=
  λ s, (tt, {| executions := f (executions s); loading := loading s;
               refreshing := refreshing s; error := error s; hasMore := hasMore s;
               totalRecords := totalRecords s; cursor := cursor s;
               statusFilter := statusFilter s; workflowFilter := workflowFilter s |}).
Definition setLoading (b : bool) : Hook State unit :=
  λ s, (tt, {| executions := executions s; loading := b;
               refreshing := refreshing s; error := error s; hasMore := hasMore s;
               totalRecords := totalRecords s; cursor := cursor s;
               statusFilter := statusFilter s; workflowFilter := workflowFilter s |}).
Definition setRefreshing (b : bool) : Hook State unit :=
  λ s, (tt, {| executions := executions s; loading := loading s;
               refreshing := b; error := error s; hasMore := hasMore s;
               totalRecords := totalRecords s; cursor := cursor s;
               statusFilter := statusFilter s; workflowFilter := workflowFilter s |}).
Definition setError (e : option string) : Hook State unit :=
  λ s, (tt, {| executions := executions s; loading := loading s;
               refreshing := refreshing s; error := e; hasMore := hasMore s;
               totalRecords := totalRecords s; cursor := cursor s;
               statusFilter := statusFilter s; workflowFilter := workflowFilter s |}).
Definition setHasMore (b : bool) : Hook State unit :=
  λ s, (tt, {| executions := executions s; loading := loading s;
               refreshing := refreshing s; error := error s; hasMore := b;
               totalRecords := totalRecords s; cursor := cursor s;
               statusFilter := statusFilter s; workflowFilter := workflowFilter s |}).
Definition setTotalRecords (n : nat) : Hook State unit :=
  λ s, (tt, {| executions := executions s; loading := loading s;
               refreshing := refreshing s; error := error s; hasMore := hasMore s;
               totalRecords := n; cursor := cursor s;
               statusFilter := statusFilter s; workflowFilter := workflowFilter s |}).
Definition setCursor (c : option string) : Hook State unit :=
  λ s, (tt, {| executions := executions s; loading := loading s;
               refreshing := refreshing s; error := error s; hasMore := hasMore s;
               totalRecords := totalRecords s; cursor := c;
               statusFilter := statusFilter s; workflowFilter := workflowFilter s |}).
Definition setStatusFilter (f : option ExecutionStatus) : Hook State unit :=
  λ s, (tt, {| executions := executions s; loading := loading s;
               refreshing := refreshing s; error := error s; hasMore := hasMore s;
               totalRecords := totalRecords s; cursor := cursor s;
               statusFilter := f; workflowFilter := workflowFilter s |}).
Definition setWorkflowFilter (f : option string) : Hook State unit :=
  λ s, (tt, {| executions := executions s; loading := loading s;
               refreshing := refreshing s; error := error s; hasMore := hasMore s;
               totalRecords := totalRecords s; cursor := cursor s;
               statusFilter := statusFilter s; workflowFilter := f |}).

(** A request left in flight by [fetchExecutions]: what the
    continuation after the [await] still holds, [params] and [replace].
    No tag of the filter context is kept with it. *)
Record Pending := {
  params : GetExecutionsQuery;
  replace : bool;
}.

Section WithOptions.
Variable opts : Options.

Definition getClient : Settled unit :=
  getClientWith (apiClient opts) (baseUrl opts) (apiKey opts).

(** The [catch] and [finally] blocks of [fetchExecutions]. *)
Definition fetchExecutions_catch (err : Thrown) : Hook State unit :=
  setError (Some (axiosMessage "Failed to fetch executions" err)).

Definition fetchExecutions_finally : Hook State unit :=
  setLoading false ;;
  setRefreshing false.

(** [fetchExecutions(params, replace)] up to its [await]. *)
Definition fetchExecutions_call (p : GetExecutionsQuery) (rep : bool)
  : Hook State (option Pending) :=
  (if rep then setLoading true else hook_ret tt) ;;
  setError None ;;
  match getClient with
  | inl err =>
      fetchExecutions_catch err ;;
      fetchExecutions_finally ;;
      hook_ret None
  | inr _ => hook_ret (Some {| params := p; replace := rep |})
  end.

(** [fetchExecutions] from the [await] on, when the request settles. *)
Definition fetchExecutions_settle (p : Pending) (r : Settled ExecutionListResponse)
  : Hook State unit :=
  match r with
  | inr resp =>
      (if replace p
       then setExecutions (λ _, data resp)
       else setExecutions (λ prev, prev ++ data resp)) ;;
      setCursor (nextCursor resp) ;;
      setHasMore (truthy (nextCursor resp) && bool_decide (0 < length (data resp))) ;;
      setTotalRecords (default (length (data resp)) (numberOfTotalRecords resp)) ;;
      fetchExecutions_finally
  | inl err =>
      fetchExecutions_catch err ;;
      fetchExecutions_finally
  end.

Definition refresh (view : State) : Hook State (option Pending) :=
  setRefreshing true ;;
  setCursor None ;;
  fetchExecutions_call
    {| q_limit := initialLimit opts; q_cursor := None;
       q_status := statusFilter view; q_workflowId := workflowFilter view |}
    true.

Definition loadMore (view : State) : Hook State (option Pending) :=
  if loading view || negb (hasMore view) then hook_ret None
  else
    fetchExecutions_call
      {| q_limit := initialLimit opts; q_cursor := cursor view;
         q_status := statusFilter view; q_workflowId := workflowFilter view |}
      false.

Definition handleSetStatusFilter (st : option ExecutionStatus) : Hook State unit :=
  setStatusFilter st ;;
  setCursor None ;;
  setExecutions (λ _, []) ;;
  setHasMore true.

Definition handleSetWorkflowFilter (w : option string) : Hook State unit :=
  setWorkflowFilter w ;;
  setCursor None ;;
  setExecutions (λ _, []) ;;
  setHasMore true.

(** The effect on [statusFilter] and [workflowFilter]: it runs after
    the first render and after each render in which one of the two
    differs from the previous render. *)
Definition filterEffect (view : State) : Hook State (option Pending) :=
  fetchExecutions_call
    {| q_limit := initialLimit opts; q_cursor := None;
       q_status := statusFilter view; q_workflowId := workflowFilter view |}
    true.

(** *** The hook over time

    The cells together with the requests in flight.  A call from the
    screen runs in the closure of the last render; a request settles
    at any later time, in any order. *)
Record World := {
  hook : State;
  inflight : list Pending;
}.

Inductive Event :=
| CallRefresh
| CallLoadMore
| CallSetStatusFilter (st : option ExecutionStatus)
| CallSetWorkflowFilter (w : option string)
| Settles (i : nat) (r : Settled ExecutionListResponse).

Definition issue (m : Hook State (option Pending)) (w : World) : World :=
  let '(o, s) := m (hook w) in
  {| hook := s; inflight := inflight w ++ option_list o |}.

(** The render after a filter setter: the effect runs when one of
    its two filter dependencies changed. *)
Definition rerender (before : State) (w : World) : World :=
  if decide (statusFilter (hook w) = statusFilter before
             ∧ workflowFilter (hook w) = workflowFilter before)
  then w
  else issue (filterEffect (hook w)) w.

Definition step (w : World) (e : Event) : World :=
  match e with
  | CallRefresh => issue (refresh (hook w)) w
  | CallLoadMore => issue (loadMore (hook w)) w
  | CallSetStatusFilter st =>
      rerender (hook w)
        {| hook := exec (handleSetStatusFilter st) (hook w); inflight := inflight w |}
  | CallSetWorkflowFilter wf =>
      rerender (hook w)
        {| hook := exec (handleSetWorkflowFilter wf) (hook w); inflight := inflight w |}
  | Settles i r =>
      match inflight w !! i with
      | Some p =>
          {| hook := exec (fetchExecutions_settle p r) (hook w);
             inflight := delete i (inflight w) |}
      | None => w
      end
  end.

(** The first render and its effect. *)
Definition mount : World :=
  issue (filterEffect initial) {| hook := initial; inflight := [] |}.

Definition run (es : list Event) : World := foldl step mount es.

End WithOptions.

End UseExecutions.

(** ** [useExecution]: the execution detail controller *)

Module UseExecution.
Import Js.
Export UseExecutions (Execution, id, finished, retryOf, workflowId, status).

(** [UseExecutionOptions] *)
Record Options := {
  apiClient : bool;
  baseUrl : option string;
  apiKey : option string;
  executionId : string;
  includeData : bool;
}.

Record State := {
  execution : option Execution;
  loading : bool;
  refreshing : bool;
  error : option string;
  retrying : bool;
  retryError : option string;
}.

Definition initial : State := {|
  execution := None;
  loading := true;
  refreshing := false;
  error := None;
  retrying := false;
  retryError := None;
|}.

Definition setExecution (e : option Execution) : Hook State unit :=
  λ s, (tt, {| execution := e; loading := loading s; refreshing := refreshing s;
               error := error s; retrying := retrying s; retryError := retryError s |}).
Definition setLoading (b : bool) : Hook State unit :=
  λ s, (tt, {| execution := execution s; loading := b; refreshing := refreshing s;
               error := error s; retrying := retrying s; retryError := retryError s |}).
Definition setRefreshing (b : bool) : Hook State unit :=
  λ s, (tt, {| execution := execution s; loading := loading s; refreshing := b;
               error := error s; retrying := retrying s; retryError := retryError s |}).
Definition setError (e : option string) : Hook State unit :=
  λ s, (tt, {| execution := execution s; loading := loading s; refreshing := refreshing s;
               error := e; retrying := retrying s; retryError := retryError s |}).
Definition setRetrying (b : bool) : Hook State unit :=
  λ s, (tt, {| execution := execution s; loading := loading s; refreshing := refreshing s;
               error := error s; retrying := b; retryError := retryError s |}).
Definition setRetryError (e : option string) : Hook State unit :=
  λ s, (tt, {| execution := execution s; loading := loading s; refreshing := refreshing s;
               error := error s; retrying := retrying s; retryError := e |}).

Section WithOptions.
Variable opts : Options.

Definition getClient : Settled unit :=
  getClientWith (apiClient opts) (baseUrl opts) (apiKey opts).

Definition fetchExecution_catch (err : Thrown) : Hook State unit :=
  setError (Some (axiosMessage "Failed to fetch execution" err)).

Definition fetchExecution_finally : Hook State unit :=
  setLoading false ;;
  setRefreshing false.

(** [fetchExecution(isRefresh)] up to its [await]; [true] when a
    request was left in flight. *)
Definition fetchExecution_call (isRefresh : bool) : Hook State bool :=
  (if isRefresh then setRefreshing true else setLoading true) ;;
  setError None ;;
  match getClient with
  | inl err =>
      fetchExecution_catch err ;;
      fetchExecution_finally ;;
      hook_ret false
  | inr _ => hook_ret true
  end.

Definition fetchExecution_settle (r : Settled Execution) : Hook State unit :=
  match r with
  | inr e =>
      setExecution (Some e) ;;
      fetchExecution_finally
  | inl err =>
      fetchExecution_catch err ;;
      fetchExecution_finally
  end.

Definition refresh : Hook State bool := fetchExecution_call true.

Definition retry_catch (err : Thrown) : Hook State unit :=
  setRetryError (Some (axiosMessage "Failed to retry execution" err)).

(** [retry()] up to its [await].  [inl v]: the promise is already
    decided and resolves to [v]; [inr tt]: the POST is in flight. *)
Definition retry_call (view : State) : Hook State (option Execution + unit) :=
  match execution view with
  | None => hook_ret (inl None)
  | Some _ =>
      setRetrying true ;;
      setRetryError None ;;
      match getClient with
      | inl err =>
          retry_catch err ;;
          setRetrying false ;;
          hook_ret (inl None)
      | inr _ => hook_ret (inr tt)
      end
  end.

(** [retry()] from the [await] on; the value is what the promise
    given to the caller resolves to. *)
Definition retry_settle (r : Settled Execution) : Hook State (option Execution) :=
  match r with
  | inr e =>
      setExecution (Some e) ;;
      setRetrying false ;;
      hook_ret (Some e)
  | inl err =>
      retry_catch err ;;
      setRetrying false ;;
      hook_ret None
  end.

End WithOptions.

End UseExecution.

(** ** [n8nApi]: the client object behind [useWorkflows] *)

Module N8nApi.
Import Js.

(** [Workflow] of [src/types/workflow.ts], without its tag list and
    node counts, which no callback reads. *)
Record Workflow := {
  id : string;
  name : string;
  active : bool;
  createdAt : string;
  updatedAt : string;
}.

Record WorkflowsResponse := {
  data : list Workflow;
  nextCursor : option string;
}.

Record Params := {
  p_limit : nat;
  p_cursor : option string;
  p_filter : option string;
}.

(** The PATCH the object sends for a workflow. *)
Record Patch := {
  patch_id : string;
  patch_active : bool;
}.

Section WithClient.
(** [this.client !== null] *)
Variable configured : bool.

Definition notConfigured : Thrown := PlainError "API not configured".

(** [getWorkflows]: rejects without a client, else what the server
    answers. *)
Definition getWorkflows (answer : Settled WorkflowsResponse) : Settled WorkflowsResponse :=
  if configured then answer else inl notConfigured.

(** The server, as far as the PATCH of a workflow goes. *)
Variable server : Patch → Settled Workflow.

Definition activateWorkflow (i : string) : Settled Workflow :=
  if configured then server {| patch_id := i; patch_active := true |}
  else inl notConfigured.

Definition deactivateWorkflow (i : string) : Settled Workflow :=
  if configured then server {| patch_id := i; patch_active := false |}
  else inl notConfigured.

Definition toggleWorkflowActive (i : string) (act : bool) : Settled Workflow :=
  if act then activateWorkflow i else deactivateWorkflow i.

End WithClient.

End N8nApi.

(** ** [useWorkflows]: the workflows list controller *)

Module UseWorkflows.
Import Js.
Export N8nApi (Workflow, id, name, active, createdAt, updatedAt,
               WorkflowsResponse, data, nextCursor, Params, p_limit, p_cursor, p_filter).

Record Options := {
  pageSize : nat;
}.

Record State := {
  workflows : list Workflow;
  loading : bool;
  refreshing : bool;
  error : option string;
  hasMore : bool;
  cursor : option string;
  searchQuery : string;
}.

Definition initial : State := {|
  workflows := [];
  loading := true;
  refreshing := false;
  error := None;
  hasMore := true;
  cursor := None;
  searchQuery := "";
|}.

Definition setWorkflows (f : list Workflow → list Workflow) : Hook State unit :=
  λ s, (tt, {| workflows := f (workflows s); loading := loading s;
               refreshing := refreshing s; error := error s; hasMore := hasMore s;
               cursor := cursor s; searchQuery := searchQuery s |}).
Definition setLoading (b : bool) : Hook State unit :=
  λ s, (tt, {| workflows := workflows s; loading := b;
               refreshing := refreshing s; error := error s; hasMore := hasMore s;
               cursor := cursor s; searchQuery := searchQuery s |}).
Definition setRefreshing (b : bool) : Hook State unit :=
  λ s, (tt, {| workflows := workflows s; loading := loading s;
               refreshing := b; error := error s; hasMore := hasMore s;
               cursor := cursor s; searchQuery := searchQuery s |}).
Definition setError (e : option string) : Hook State unit :=
  λ s, (tt, {| workflows := workflows s; loading := loading s;
               refreshing := refreshing s; error := e; hasMore := hasMore s;
               cursor := cursor s; searchQuery := searchQuery s |}).
Definition setHasMore (b : bool) : Hook State unit :=
  λ s, (tt, {| workflows := workflows s; loading := loading s;
               refreshing := refreshing s; error := error s; hasMore := b;
               cursor := cursor s; searchQuery := searchQuery s |}).
Definition setCursor (c : option string) : Hook State unit :=
  λ s, (tt, {| workflows := workflows s; loading := loading s;
               refreshing := refreshing s; error := error s; hasMore := hasMore s;
               cursor := c; searchQuery := searchQuery s |}).
Definition setSearchQuery (q : string) : Hook State unit :=
  λ s, (tt, {| workflows := workflows s; loading := loading s;
               refreshing := refreshing s; error := error s; hasMore := hasMore s;
               cursor := cursor s; searchQuery := q |}).

(** What the continuation of [fetchWorkflows] still holds. *)
Record Pending := {
  isRefresh : bool;
  params : Params;
}.

(** The request [toggleActive] awaits: the arguments it passed to
    [n8nApi.toggleWorkflowActive]. *)
Record PendingToggle := {
  t_workflowId : string;
  t_active : bool;
}.

(** [{ ...w, active: a }] *)
Definition withActive (a : bool) (w : Workflow) : Workflow :=
  {| id := id w; name := name w; active := a;
     createdAt := createdAt w; updatedAt := updatedAt w |}.

Section WithOptions.
Variable opts : Options.

Definition fetchWorkflows_finally : Hook State unit :=
  setLoading false ;;
  setRefreshing false.

(** [fetchWorkflows(isRefresh, searchFilter)] up to its [await];
    [cursor] is read from the closure. *)
Definition fetchWorkflows_call (view : State) (isRef : bool) (searchFilter : option string)
  : Hook State Pending :=
  (if isRef
   then (setRefreshing true ;; setCursor None)
   else setLoading true) ;;
  setError None ;;
  hook_ret {| isRefresh := isRef;
              params := {| p_limit := pageSize opts;
                           p_cursor := if negb isRef && truthy (cursor view)
                                       then cursor view else None;
                           p_filter := if truthy searchFilter
                                       then searchFilter else None |} |}.

(** [fetchWorkflows] from the [await] on; [r] is what
    [n8nApi.getWorkflows(params)] settled to. *)
Definition fetchWorkflows_settle (p : Pending) (r : Settled WorkflowsResponse)
  : Hook State unit :=
  match r with
  | inr resp =>
      (if isRefresh p
       then setWorkflows (λ _, data resp)
       else setWorkflows (λ prev, prev ++ data resp)) ;;
      (if truthy (nextCursor resp)
       then (setCursor (nextCursor resp) ;; setHasMore true)
       else setHasMore false) ;;
      fetchWorkflows_finally
  | inl err =>
      setError (Some (errorMessage "Failed to fetch workflows" err)) ;;
      fetchWorkflows_finally
  end.

Definition refresh (view : State) : Hook State Pending :=
  setCursor None ;;
  fetchWorkflows_call view true (Some (searchQuery view)).

Definition loadMore (view : State) : Hook State (option Pending) :=
  if negb (loading view) && negb (refreshing view) && hasMore view
  then (p <- fetchWorkflows_call view false (Some (searchQuery view)) ;;
        hook_ret (Some p))
  else hook_ret None.

(** [toggleActive(workflowId, active)] up to its [await]: the first
    statement of its [try] block is the awaited call of
    [n8nApi.toggleWorkflowActive]; no setter runs before it. *)
Definition toggleActive_call (workflowId : string) (act : bool)
  : Hook State PendingToggle :=
  hook_ret {| t_workflowId := workflowId; t_active := act |}.

(** [toggleActive] from the [await] on; [r] is what
    [n8nApi.toggleWorkflowActive(workflowId, active)] settled to, and
    the value is how the promise given to the caller settles. *)
Definition toggleActive_settle (workflowId : string) (r : Settled Workflow)
  : Hook State (Settled unit) :=
  match r with
  | inr updatedWorkflow =>
      setWorkflows (λ prev,
        (λ w, if String.eqb (id w) workflowId
              then withActive (active updatedWorkflow) w
              else w) <$> prev) ;;
      hook_ret (inr tt)
  | inl err =>
      setError (Some (errorMessage "Failed to update workflow" err)) ;;
      hook_ret (inl err)
  end.

Definition searchWorkflows (query : string) : Hook State unit :=
  setSearchQuery query ;;
  setCursor None ;;
  setWorkflows (λ _, []) ;;
  setHasMore true.

(** The effect on [searchQuery].  Its guard
    [searchQuery !== undefined || workflows.length === 0] holds for
    every string. *)
Definition searchEffect (view : State) : Hook State Pending :=
  fetchWorkflows_call view true (Some (searchQuery view)).

(** The mount effect, after [n8nApi.initialize()]: [fetchWorkflows(true)]. *)
Definition initEffect (view : State) : Hook State Pending :=
  fetchWorkflows_call view true None.

(** [handleToggleActive] of the workflows screen, from the [await]
    on: [try { await toggleActive(id, !currentActive) } catch {}]. *)
Definition handleToggleActive_settle (workflowId : string) (r : Settled Workflow)
  : Hook State (Settled unit) :=
  _ <- toggleActive_settle workflowId r ;;
  hook_ret (inr tt).

End WithOptions.

End UseWorkflows.

(** ** Concrete data for the scenarios *)

Module Fixtures.
Import Js.

Module E.
Import UseExecutions.

Definition opts : Options :=
  {| apiClient := true; baseUrl := None; apiKey := None; initialLimit := 20 |}.

Definition exec_a : Execution :=
  {| id := "a"; finished := true; retryOf := None; workflowId := "w1"; status := success |}.
Definition exec_b : Execution :=
  {| id := "b"; finished := true; retryOf := None; workflowId := "w1"; status := error_ |}.
Definition exec_c : Execution :=
  {| id := "c"; finished := true; retryOf := None; workflowId := "w1"; status := success |}.

Definition page1 : ExecutionListResponse :=
  {| data := [exec_a; exec_b]; nextCursor := Some "c1"; numberOfTotalRecords := None |}.
Definition page2 : ExecutionListResponse :=
  {| data := [exec_c]; nextCursor := None; numberOfTotalRecords := None |}.
Definition page_errors : ExecutionListResponse :=
  {| data := [exec_b]; nextCursor := None; numberOfTotalRecords := None |}.

(** The hook after its first page has arrived: [a; b], cursor ["c1"],
    nothing in flight. *)
Definition loaded : World := run opts [Settles 0 (inr page1)].
End E.

Module D.
Import UseExecution.

Definition opts : Options :=
  {| apiClient := true; baseUrl := None; apiKey := None;
     executionId := "e1"; includeData := true |}.

Definition exec_e1 : Execution :=
  {| id := "e1"; finished := true; retryOf := None;
     workflowId := "w1"; status := UseExecutions.error_ |}.
Definition exec_e2 : Execution :=
  {| id := "e2"; finished := false; retryOf := Some "e1";
     workflowId := "w1"; status := UseExecutions.running |}.

(** The detail hook showing execution ["e1"]. *)
Definition showing_e1 : State :=
  exec (fetchExecution_settle (inr exec_e1)) (exec (fetchExecution_call opts false) initial).
End D.

Module W.
Import UseWorkflows.

Definition opts : Options := {| pageSize := 20 |}.

Definition wf1 : Workflow :=
  {| id := "w1"; name := "Nightly sync"; active := true;
     createdAt := "2024-01-01"; updatedAt := "2024-01-02" |}.
Definition wf2 : Workflow :=
  {| id := "w2"; name := "Alerts"; active := false;
     createdAt := "2024-01-03"; updatedAt := "2024-01-04" |}.

Definition page : WorkflowsResponse :=
  {| data := [wf1; wf2]; nextCursor := None |}.

(** A cursor with no items, as a misbehaving endpoint may answer. *)
Definition empty_page_with_cursor : WorkflowsResponse :=
  {| data := []; nextCursor := Some "c1" |}.

(** The workflows hook after its first page: [w1; w2]. *)
Definition loaded : State :=
  let '(p, s) := initEffect opts initial initial in
  exec (fetchWorkflows_settle p (inr page)) s.
End W.

End Fixtures.

(** ** The screens that call the list hooks *)

Module Screens.
Import Js.

(** [handleEndReached] of the workflows screen:
    [if (hasMore && !loading) loadMore()]. *)
Definition handleEndReached (opts : UseWorkflows.Options) (view : UseWorkflows.State)
  : Hook UseWorkflows.State (option UseWorkflows.Pending) :=
  if UseWorkflows.hasMore view && negb (UseWorkflows.loading view)
  then UseWorkflows.loadMore opts view
  else hook_ret None.

(** [handleRetry] of the execution detail screen, once [retry()] has
    resolved to [newExecution]: the route parameters it sets, if any. *)
Definition handleRetry_setParams (newExecution : option UseExecutions.Execution)
  : option (string * UseExecutions.Execution) :=
  match newExecution with
  | Some e => Some (UseExecutions.id e, e)
  | None => None
  end.

End Screens.

(** ** Statements about the hook over time *)

Module Reachable.
Import UseExecutions.

(** Flags up only while something is in flight. *)
Definition idle_when_quiet (w : World) : Prop :=
  inflight w = [] → loading (hook w) = false ∧ refreshing (hook w) = false.

(** Settling, one after the other, the answers to a series of
    requests of the executions hook. *)
Definition settle_all (answers : list (Pending * ExecutionListResponse)) (st : State) : State :=
  foldl (λ s a, exec (fetchExecutions_settle a.1 (inr a.2)) s) st answers.

End Reachable.

(** ** [useWorkflow]: the workflow detail controller *)

Module UseWorkflow.
Import Js.

(** [ExecutionSummary] *)
Record ExecutionSummary := {
  id : string;
  status : string;
  startedAt : string;
  stoppedAt : option string;
  mode : string;
  executionTime : option nat;
}.

(** What [fetchExecutions] destructures from [response.data]. *)
Record ExecutionsPage := {
  data : list ExecutionSummary;
  nextCursor : option string;
}.

Record Options := {
  workflowId : string;
}.

Record State := {
  workflow : option N8nApi.Workflow;
  loading : bool;
  refreshing : bool;
  error : option string;
  executions : list ExecutionSummary;
  refreshingExecutions : bool;
  executionsError : option string;
  hasMoreExecutions : bool;
  executionsCursor : option string;
}.

Definition initial : State := {|
  workflow := None;
  loading := true;
  refreshing := false;
  error := None;
  executions := [];
  refreshingExecutions := false;
  executionsError := None;
  hasMoreExecutions := true;
  executionsCursor := None;
|}.

Definition setWorkflow (f : option N8nApi.Workflow → option N8nApi.Workflow)
  : Hook State unit :=
  λ s, (tt, {| workflow := f (workflow s); loading := loading s; refreshing := refreshing s;
               error := error s; executions := executions s;
               refreshingExecutions := refreshingExecutions s;
               executionsError := executionsError s;
               hasMoreExecutions := hasMoreExecutions s;
               executionsCursor := executionsCursor s |}).
Definition setLoading (b : bool) : Hook State unit :=
  λ s, (tt, {| workflow := workflow s; loading := b; refreshing := refreshing s;
               error := error s; executions := executions s;
               refreshingExecutions := refreshingExecutions s;
               executionsError := executionsError s;
               hasMoreExecutions := hasMoreExecutions s;
               executionsCursor := executionsCursor s |}).
Definition setRefreshing (b : bool) : Hook State unit :=
  λ s, (tt, {| workflow := workflow s; loading := loading s; refreshing := b;
               error := error s; executions := executions s;
               refreshingExecutions := refreshingExecutions s;
               executionsError := executionsError s;
               hasMoreExecutions := hasMoreExecutions s;
               executionsCursor := executionsCursor s |}).
Definition setError (e : option string) : Hook State unit :=
  λ s, (tt, {| workflow := workflow s; loading := loading s; refreshing := refreshing s;
               error := e; executions := executions s;
               refreshingExecutions := refreshingExecutions s;
               executionsError := executionsError s;
               hasMoreExecutions := hasMoreExecutions s;
               executionsCursor := executionsCursor s |}).
Definition setExecutions (f : list ExecutionSummary → list ExecutionSummary)
  : Hook State unit :=
  λ s, (tt, {| workflow := workflow s; loading := loading s; refreshing := refreshing s;
               error := error s; executions := f (executions s);
               refreshingExecutions := refreshingExecutions s;
               executionsError := executionsError s;
               hasMoreExecutions := hasMoreExecutions s;
               executionsCursor := executionsCursor s |}).
Definition setRefreshingExecutions (b : bool) : Hook State unit :=
  λ s, (tt, {| workflow := workflow s; loading := loading s; refreshing := refreshing s;
               error := error s; executions := executions s;
               refreshingExecutions := b;
               executionsError := executionsError s;
               hasMoreExecutions := hasMoreExecutions s;
               executionsCursor := executionsCursor s |}).
Definition setExecutionsError (e : option string) : Hook State unit :=
  λ s, (tt, {| workflow := workflow s; loading := loading s; refreshing := refreshing s;
               error := error s; executions := executions s;
               refreshingExecutions := refreshingExecutions s;
               executionsError := e;
               hasMoreExecutions := hasMoreExecutions s;
               executionsCursor := executionsCursor s |}).
Definition setHasMoreExecutions (b : bool) : Hook State unit :=
  λ s, (tt, {| workflow := workflow s; loading := loading s; refreshing := refreshing s;
               error := error s; executions := executions s;
               refreshingExecutions := refreshingExecutions s;
               executionsError := executionsError s;
               hasMoreExecutions := b;
               executionsCursor := executionsCursor s |}).
Definition setExecutionsCursor (c : option string) : Hook State unit :=
  λ s, (tt, {| workflow := workflow s; loading := loading s; refreshing := refreshing s;
               error := error s; executions := executions s;
               refreshingExecutions := refreshingExecutions s;
               executionsError := executionsError s;
               hasMoreExecutions := hasMoreExecutions s;
               executionsCursor := c |}).

(** The query [fetchExecutions] sends, and what its continuation holds. *)
Record ExecutionsQuery := {
  e_limit : nat;
  e_workflowId : string;
  e_cursor : option string;
}.

Record Pending := {
  isRefresh : bool;
  query : ExecutionsQuery;
}.

(** Which of [activate] and [deactivate] a call of [toggleActive] runs. *)
Inductive Action := Activate | Deactivate.

(** The [active] value each of them writes: [{ ...prev, active: true }]
    and [{ ...prev, active: false }]. *)
Definition written (a : Action) : bool :=
  match a with Activate => true | Deactivate => false end.

Definition failedTo (a : Action) : string :=
  match a with
  | Activate => "Failed to activate workflow"
  | Deactivate => "Failed to deactivate workflow"
  end.

Section WithOptions.
Variable opts : Options.

(** [fetchWorkflow(isRefresh)] up to its first [await]. *)
Definition fetchWorkflow_call (isRef : bool) : Hook State unit :=
  (if isRef then setRefreshing true else setLoading true) ;;
  setError None.

(** [fetchWorkflow] once [n8nApi.initialize()] and
    [n8nApi.getWorkflow(workflowId)] have settled. *)
Definition fetchWorkflow_settle (r : Settled N8nApi.Workflow) : Hook State unit :=
  match r with
  | inr response => setWorkflow (λ _, Some response)
  | inl err => setError (Some (errorMessage "Failed to fetch workflow" err))
  end ;;
  setLoading false ;;
  setRefreshing false.

(** [fetchExecutions(isRefresh)] up to its first [await];
    [executionsCursor] is read from the closure. *)
Definition fetchExecutions_call (view : State) (isRef : bool) : Hook State Pending :=
  (if isRef
   then (setRefreshingExecutions true ;; setExecutionsCursor None)
   else hook_ret tt) ;;
  setExecutionsError None ;;
  hook_ret {| isRefresh := isRef;
              query := {| e_limit := 10;
                          e_workflowId := workflowId opts;
                          e_cursor := if negb isRef && truthy (executionsCursor view)
                                      then executionsCursor view else None |} |}.

(** [fetchExecutions] once [getApiClient()] and the GET have settled. *)
Definition fetchExecutions_settle (p : Pending) (r : Settled ExecutionsPage)
  : Hook State unit :=
  match r with
  | inr page =>
      (if isRefresh p
       then setExecutions (λ _, data page)
       else setExecutions (λ prev, prev ++ data page)) ;;
      (if truthy (nextCursor page)
       then (setExecutionsCursor (nextCursor page) ;; setHasMoreExecutions true)
       else setHasMoreExecutions false)
  | inl err =>
      setExecutionsError (Some (errorMessage "Failed to fetch executions" err))
  end ;;
  setRefreshingExecutions false.

Definition refresh : Hook State unit := fetchWorkflow_call true.

Definition refreshExecutions (view : State) : Hook State Pending :=
  fetchExecutions_call view true.


(** [activate] and [deactivate] up to their first [await]. *)
Definition mutate_call : Hook State unit := setError None.

(** [activate] and [deactivate] once the PATCH has settled; the value
    is how the promise given to the caller settles. *)
Definition mutate_settle (a : Action) (r : Settled N8nApi.Workflow)
  : Hook State (Settled unit) :=
  match r with
  | inr _ =>
      setWorkflow (λ prev, UseWorkflows.withActive (written a) <$> prev) ;;
      hook_ret (inr tt)
  | inl err =>
      setError (Some (errorMessage (failedTo a) err)) ;;
      hook_ret (inl err)
  end.

Definition activate_call : Hook State unit := mutate_call.
Definition activate_settle := mutate_settle Activate.
Definition deactivate_call : Hook State unit := mutate_call.
Definition deactivate_settle := mutate_settle Deactivate.

(** [toggleActive]: [if (workflow?.active) deactivate() else activate()],
    on the workflow of the render. *)
Definition toggleActive_action (view : State) : Action :=
  match workflow view with
  | Some w => if N8nApi.active w then Deactivate else Activate
  | None => Activate
  end.

Definition toggleActive_call (view : State) : Hook State Action :=
  mutate_call ;;
  hook_ret (toggleActive_action view).

Definition toggleActive_settle (a : Action) (r : Settled N8nApi.Workflow)
  : Hook State (Settled unit) :=
  mutate_settle a r.

(** The PATCH [toggleActive] has [n8nApi] send. *)
Definition toggleActive_request (configured : bool)
    (server : N8nApi.Patch → Settled N8nApi.Workflow) (a : Action)
  : Settled N8nApi.Workflow :=
  match a with
  | Activate => N8nApi.activateWorkflow configured server (workflowId opts)
  | Deactivate => N8nApi.deactivateWorkflow configured server (workflowId opts)
  end.

Definition deleteWorkflow_call : Hook State unit := setError None.


Definition execute_call : Hook State unit := setError None.

(** [execute] once the POST has settled with [{ executionId }]:
    [return result.executionId || null]. *)
Definition execute_settle (r : Settled string) : Hook State (Settled (option string)) :=
  match r with
  | inr executionId =>
      hook_ret (inr (if truthy (Some executionId) then Some executionId else None))
  | inl err =>
      setError (Some (errorMessage "Failed to execute workflow" err)) ;;
      hook_ret (inl err)
  end.

(** [handleToggleActive] of the workflow detail screen, from the
    [await] on: the text of the alert it raises, if any. *)
Definition handleToggleActive_settle (view : State) (a : Action)
    (r : Settled N8nApi.Workflow) : Hook State (option string) :=
  outcome <- toggleActive_settle a r ;;
  hook_ret match outcome with
           | inr _ => None
           | inl _ =>
               Some (match toggleActive_action view with
                     | Deactivate => "Failed to deactivate workflow"
                     | Activate => "Failed to activate workflow"
                     end)
           end.

End WithOptions.

End UseWorkflow.

(** ** [AsyncStorage] *)

Module AsyncStorage.
Import Js.

(** The key-value store of the device: string keys, string values. *)
Abbreviation Storage := (gmap string string).

(** [getItem(key)]: the stored string, or [null]. *)
Definition getItem (key : string) (store : Storage) : option string := store !! key.

Definition setItem (key value : string) (store : Storage) : Storage :=
  <[key := value]> store.

Definition removeItem (key : string) (store : Storage) : Storage := delete key store.

(** [multiRemove(keys)] *)
Definition multiRemove (keys : list string) (store : Storage) : Storage :=
  foldr removeItem store keys.

End AsyncStorage.

(** ** [ThemeProvider]: the theme preference *)

Module ThemeContext.
Import Js AsyncStorage.

Definition THEME_KEY : string := "@n8n_theme_preference".

(** [type ThemeMode = 'light' | 'dark' | 'system'] *)
Inductive ThemeMode := light | dark | system.

Global Instance ThemeMode_eq_dec : EqDecision ThemeMode.
Proof. solve_decision. Defined.

(** The string a mode is at run time; it is what [setItem] stores. *)
Definition modeString (m : ThemeMode) : string :=
  match m with
  | light => "light"
  | dark => "dark"
  | system => "system"
  end.

(** [['light', 'dark', 'system'].includes(stored)], with the cast
    [stored as ThemeMode] that follows it. *)
Definition asThemeMode (stored : string) : option ThemeMode :=
  if String.eqb stored "light" then Some light
  else if String.eqb stored "dark" then Some dark
  else if String.eqb stored "system" then Some system
  else None.

(** [useColorScheme()] *)
Inductive ColorScheme := schemeLight | schemeDark.

Record State := {
  themeMode : ThemeMode;
  isLoaded : bool;
}.

Definition initial : State := {| themeMode := system; isLoaded := false |}.

(** The provider together with the store it persists to. *)
Record World := {
  store : Storage;
  cells : State;
}.

Definition setThemeModeState (m : ThemeMode) : Hook World unit :=
  λ w, (tt, {| store := store w;
               cells := {| themeMode := m; isLoaded := isLoaded (cells w) |} |}).
Definition setIsLoaded (b : bool) : Hook World unit :=
  λ w, (tt, {| store := store w;
               cells := {| themeMode := themeMode (cells w); isLoaded := b |} |}).
Definition writeStore (f : Storage → Storage) : Hook World unit :=
  λ w, (tt, {| store := f (store w); cells := cells w |}).

(** [loadThemePreference]; [readFails] is the error [getItem] rejects
    with, if it does. *)
Definition loadThemePreference (readFails : option Thrown) : Hook World unit :=
  λ w,
    (match readFails with
     | None =>
         match getItem THEME_KEY (store w) with
         | Some stored =>
             if truthy (Some stored)
             then match asThemeMode stored with
                  | Some m => setThemeModeState m
                  | None => hook_ret tt
                  end
             else hook_ret tt
         | None => hook_ret tt
         end
     | Some _ => hook_ret tt
     end ;;
     setIsLoaded true) w.

(** [setThemeMode(mode)]; [writeFails] is the error [setItem] rejects
    with, if it does.  The value is how the promise settles. *)
Definition setThemeMode (writeFails : option Thrown) (mode : ThemeMode)
  : Hook World (Settled unit) :=
  match writeFails with
  | None =>
      writeStore (setItem THEME_KEY (modeString mode)) ;;
      setThemeModeState mode ;;
      hook_ret (inr tt)
  | Some err => hook_ret (inl err)
  end.

(** [themeMode === 'light' ? 'dark' : themeMode === 'dark' ? 'system' : 'light'] *)
Definition nextMode (m : ThemeMode) : ThemeMode :=
  match m with
  | light => dark
  | dark => system
  | system => light
  end.

(** [toggleTheme], in the closure of a render. *)
Definition toggleTheme (writeFails : option Thrown) (view : State)
  : Hook World (Settled unit) :=
  setThemeMode writeFails (nextMode (themeMode view)).

(** [isDark] *)
Definition isDark (m : ThemeMode) (systemColorScheme : option ColorScheme) : bool :=
  match m with
  | system =>
      match systemColorScheme with
      | Some schemeDark => true
      | _ => false
      end
  | dark => true
  | light => false
  end.

(** The provider of a fresh start of the application on a store. *)
Definition mount (s : Storage) : World := {| store := s; cells := initial |}.


End ThemeContext.

(** ** The [n8nApi] object: its credentials and its client *)

Module N8nApiObject.
Import Js AsyncStorage.

Definition API_URL_KEY : string := "n8n_api_url".
Definition API_KEY_KEY : string := "n8n_api_key".

(** What [axios.create] is given: the base URL and the key header. *)
Record Client := {
  baseURL : string;
  key : string;
}.

(** The private fields of the object. *)
Record Api := {
  client : option Client;
  baseUrl : option string;
  apiKey : option string;
}.

Definition fresh : Api := {| client := None; baseUrl := None; apiKey := None |}.

(** The object and the store of the device. *)
Record World := {
  store : Storage;
  api : Api;
}.

(** A storage operation of a method that rejects: its position among
    the awaits of the method, and the error. *)
Definition Failure : Type := nat * Thrown.

Definition failsAt (f : option Failure) (n : nat) : option Thrown :=
  match f with
  | Some (m, err) => if Nat.eqb m n then Some err else None
  | None => None
  end.

Definition setClient (c : option Client) : Hook World unit :=
  λ w, (tt, {| store := store w;
               api := {| client := c; baseUrl := baseUrl (api w); apiKey := apiKey (api w) |} |}).
Definition setBaseUrl (b : option string) : Hook World unit :=
  λ w, (tt, {| store := store w;
               api := {| client := client (api w); baseUrl := b; apiKey := apiKey (api w) |} |}).
Definition setApiKey (k : option string) : Hook World unit :=
  λ w, (tt, {| store := store w;
               api := {| client := client (api w); baseUrl := baseUrl (api w); apiKey := k |} |}).
Definition writeStore (f : Storage → Storage) : Hook World unit :=
  λ w, (tt, {| store := f (store w); api := api w |}).

(** [initialize()] *)
Definition initialize (f : option Failure) : Hook World (Settled unit) :=
  λ w,
    match failsAt f 0 with
    | Some err => (inl err, w)
    | None =>
        (setBaseUrl (getItem API_URL_KEY (store w)) ;;
         match failsAt f 1 with
         | Some err => hook_ret (inl err)
         | None =>
             setApiKey (getItem API_KEY_KEY (store w)) ;;
             match getItem API_URL_KEY (store w), getItem API_KEY_KEY (store w) with
             | Some b, Some k =>
                 if truthy (Some b) && truthy (Some k)
                 then (setClient (Some {| baseURL := b; key := k |}) ;; hook_ret (inr tt))
                 else hook_ret (inr tt)
             | _, _ => hook_ret (inr tt)
             end
         end) w
    end.

(** [setCredentials(baseUrl, apiKey)] *)
Definition setCredentials (f : option Failure) (b k : string) : Hook World (Settled unit) :=
  setBaseUrl (Some b) ;;
  setApiKey (Some k) ;;
  match failsAt f 0 with
  | Some err => hook_ret (inl err)
  | None =>
      writeStore (setItem API_URL_KEY b) ;;
      match failsAt f 1 with
      | Some err => hook_ret (inl err)
      | None =>
          writeStore (setItem API_KEY_KEY k) ;;
          setClient (Some {| baseURL := b; key := k |}) ;;
          hook_ret (inr tt)
      end
  end.

(** [clearCredentials()] *)
Definition clearCredentials (f : option Failure) : Hook World (Settled unit) :=
  setBaseUrl None ;;
  setApiKey None ;;
  setClient None ;;
  match failsAt f 0 with
  | Some err => hook_ret (inl err)
  | None =>
      writeStore (multiRemove [API_URL_KEY; API_KEY_KEY]) ;;
      hook_ret (inr tt)
  end.

(** [isConfigured()] *)
Definition isConfigured (a : Api) : bool :=
  match client a with Some _ => true | None => false end.

(** The object after a restart of the application: a fresh object
    that has run [initialize] on the store as it is. *)
Definition restarted (s : Storage) : Api :=
  api (exec (initialize None) {| store := s; api := fresh |}).

End N8nApiObject.

(** ** Failed requests, as the connection code inspects them *)

Module Http.
Import Js.

(** [response.data] of a failed request, as far as it is read. *)
Record ErrorBody := {
  body_message : option string;
  body_error : option string;
}.

Record ErrorResponse := {
  status : nat;
  body : option ErrorBody;
}.

(** An [AxiosError]: [code], [response] and [message]. *)
Record AxiosErr := {
  code : option string;
  response : option ErrorResponse;
  message : string;
}.

(** What a rejected promise of these layers carries. *)
Inductive Rejection :=
| Axios (e : AxiosErr)
| ApiError (msg : string) (statusCode : nat) (errorResponse : option ErrorBody)
| Unknown.

Definition Outcome (A : Type) : Type := Rejection + A.

(** [error.response?.status] *)
Definition statusOf (e : AxiosErr) : option nat := status <$> response e.

(** [error.response?.data] *)
Definition bodyOf (e : AxiosErr) : option ErrorBody := response e ≫= body.

(** [a || b] where [b] is a string. *)
Definition orString (a : option string) (b : string) : string :=
  if truthy a then default b a else b.

(** [a || b] where both may be absent. *)
Definition orOption (a b : option string) : option string :=
  if truthy a then a else b.

End Http.

(** ** [N8nClient] *)

Module N8nClient.
Import Js Http.

(** [s.replace(/\/$/, '')]: the string without its last character when
    that is a slash. *)
Fixpoint stripTrailingSlash (s : string) : string :=
  match s with
  | EmptyString => EmptyString
  | String c rest =>
      match rest with
      | EmptyString => if Ascii.eqb c "/"%char then EmptyString else s
      | String _ _ => String c (stripTrailingSlash rest)
      end
  end.

Record N8nClientConfig := {
  baseUrl : string;
  apiKey : string;
}.

(** [Partial<N8nClientConfig>] *)
Record PartialConfig := {
  newBaseUrl : option string;
  newApiKey : option string;
}.

(** The object: its [config] and the defaults of its axios instance. *)
Record Client := {
  config : N8nClientConfig;
  defaults_baseURL : string;
  defaults_key : string;
}.

(** The constructor. *)
Definition create (c : N8nClientConfig) : Client :=
  {| config := c;
     defaults_baseURL := stripTrailingSlash (baseUrl c);
     defaults_key := apiKey c |}.

Definition updateConfig (p : PartialConfig) (cl : Client) : Client :=
  let cl1 :=
    match newBaseUrl p with
    | Some b =>
        if truthy (Some b)
        then {| config := {| baseUrl := b; apiKey := apiKey (config cl) |};
                defaults_baseURL := stripTrailingSlash b;
                defaults_key := defaults_key cl |}
        else cl
    | None => cl
    end in
  match newApiKey p with
  | Some k =>
      if truthy (Some k)
      then {| config := {| baseUrl := baseUrl (config cl1); apiKey := k |};
              defaults_baseURL := defaults_baseURL cl1;
              defaults_key := k |}
      else cl1
  | None => cl1
  end.

Definition getConfig (cl : Client) : N8nClientConfig :=
  {| baseUrl := baseUrl (config cl); apiKey := apiKey (config cl) |}.

(** [handleError]: what it throws; it never returns. *)
Definition handleError (error : Rejection) : Rejection :=
  match error with
  | Axios e =>
      ApiError
        (orString (orOption (bodyOf e ≫= body_message) (bodyOf e ≫= body_error)) (message e))
        (default 0 (statusOf e))
        (bodyOf e)
  | other => other
  end.

(** [testConnection()], once its GET has settled. *)
Definition testConnection (r : Outcome unit) : Outcome bool :=
  match r with
  | inr _ => inr true
  | inl error =>
      match error with
      | Axios e =>
          if bool_decide (statusOf e = Some 401) then inr false
          else inl (handleError error)
      | _ => inl (handleError error)
      end
  end.

(** The other methods: [try { return (await request).data } catch (error)
    { this.handleError(error) }]. *)
Definition request {A} (r : Outcome A) : Outcome A :=
  match r with
  | inr a => inr a
  | inl error => inl (handleError error)
  end.

End N8nClient.

(** ** [N8nProvider]: the connection context *)

Module N8nContext.
Import Js Http AsyncStorage.

Definition STORAGE_API_KEY : string := "n8n_api_key".
Definition STORAGE_BASE_URL : string := "n8n_base_url".

Record State := {
  client : option N8nClient.Client;
  apiKey : string;
  baseUrl : string;
  isLoading : bool;
  isConnected : option bool;
  connectionError : option string;
}.

Record World := {
  store : Storage;
  cells : State;
}.

Definition upd (f : State → State) : Hook World unit :=
  λ w, (tt, {| store := store w; cells := f (cells w) |}).

Definition setClient (c : option N8nClient.Client) : Hook World unit :=
  upd (λ s, {| client := c; apiKey := apiKey s; baseUrl := baseUrl s;
               isLoading := isLoading s; isConnected := isConnected s;
               connectionError := connectionError s |}).
Definition setApiKey (k : string) : Hook World unit :=
  upd (λ s, {| client := client s; apiKey := k; baseUrl := baseUrl s;
               isLoading := isLoading s; isConnected := isConnected s;
               connectionError := connectionError s |}).
Definition setBaseUrl (b : string) : Hook World unit :=
  upd (λ s, {| client := client s; apiKey := apiKey s; baseUrl := b;
               isLoading := isLoading s; isConnected := isConnected s;
               connectionError := connectionError s |}).
Definition setIsLoading (b : bool) : Hook World unit :=
  upd (λ s, {| client := client s; apiKey := apiKey s; baseUrl := baseUrl s;
               isLoading := b; isConnected := isConnected s;
               connectionError := connectionError s |}).
Definition setIsConnected (c : option bool) : Hook World unit :=
  upd (λ s, {| client := client s; apiKey := apiKey s; baseUrl := baseUrl s;
               isLoading := isLoading s; isConnected := c;
               connectionError := connectionError s |}).
Definition setConnectionError (e : option string) : Hook World unit :=
  upd (λ s, {| client := client s; apiKey := apiKey s; baseUrl := baseUrl s;
               isLoading := isLoading s; isConnected := isConnected s;
               connectionError := e |}).
Definition writeStore (f : Storage → Storage) : Hook World unit :=
  λ w, (tt, {| store := f (store w); cells := cells w |}).

Section WithDefault.
(** [defaultBaseUrl], ['http://localhost:5678'] unless given. *)
Variable defaultBaseUrl : string.

Definition initial : State := {|
  client := None;
  apiKey := "";
  baseUrl := defaultBaseUrl;
  isLoading := true;
  isConnected := None;
  connectionError := None;
|}.

(** [loadStoredConfig]; [readFails] when one of the two reads rejects. *)
Definition loadStoredConfig (readFails : bool) : Hook World unit :=
  λ w,
    ((if readFails then hook_ret tt
      else
        let loadedApiKey := orString (getItem STORAGE_API_KEY (store w)) "" in
        let loadedBaseUrl := orString (getItem STORAGE_BASE_URL (store w)) defaultBaseUrl in
        setApiKey loadedApiKey ;;
        setBaseUrl loadedBaseUrl ;;
        if truthy (Some loadedApiKey)
        then setClient (Some (N8nClient.create
                                {| N8nClient.apiKey := loadedApiKey;
                                   N8nClient.baseUrl := loadedBaseUrl |}))
        else hook_ret tt) ;;
     setIsLoading false) w.

(** Which of the two writes of [setConfig], or removals of
    [clearConfig], the store refuses, if one; the other goes through. *)
Inductive Refused := RefusesApiKey | RefusesBaseUrl.

(** [setConfig(newApiKey, newBaseUrl)]; the value is how its promise
    settles. *)
Definition setConfig (refused : option (Refused * Rejection)) (newApiKey newBaseUrl : string)
  : Hook World (Outcome unit) :=
  setIsLoading true ;;
  setConnectionError None ;;
  match refused with
  | None =>
      writeStore (setItem STORAGE_API_KEY newApiKey) ;;
      writeStore (setItem STORAGE_BASE_URL newBaseUrl) ;;
      setApiKey newApiKey ;;
      setBaseUrl newBaseUrl ;;
      setClient (Some (N8nClient.create
                         {| N8nClient.apiKey := newApiKey;
                            N8nClient.baseUrl := newBaseUrl |})) ;;
      setIsConnected None ;;
      setIsLoading false ;;
      hook_ret (inr tt)
  | Some (which, err) =>
      match which with
      | RefusesApiKey => writeStore (setItem STORAGE_BASE_URL newBaseUrl)
      | RefusesBaseUrl => writeStore (setItem STORAGE_API_KEY newApiKey)
      end ;;
      setIsLoading false ;;
      hook_ret (inl err)
  end.

(** [clearConfig()] *)
Definition clearConfig (refused : option (Refused * Rejection)) : Hook World (Outcome unit) :=
  match refused with
  | None =>
      writeStore (removeItem STORAGE_API_KEY) ;;
      writeStore (removeItem STORAGE_BASE_URL) ;;
      setApiKey "" ;;
      setBaseUrl defaultBaseUrl ;;
      setClient None ;;
      setIsConnected None ;;
      setConnectionError None ;;
      hook_ret (inr tt)
  | Some (which, err) =>
      match which with
      | RefusesApiKey => writeStore (removeItem STORAGE_BASE_URL)
      | RefusesBaseUrl => writeStore (removeItem STORAGE_API_KEY)
      end ;;
      hook_ret (inl err)
  end.

(** [testConnection()] in the closure of a render, up to its [await]:
    [inl v] when it has already returned [v]. *)
Definition testConnection_call (view : State) : Hook World (bool + unit) :=
  match client view with
  | None =>
      setConnectionError (Some "No client configured") ;;
      setIsConnected (Some false) ;;
      hook_ret (inl false)
  | Some _ =>
      setConnectionError None ;;
      hook_ret (inr tt)
  end.

(** [testConnection()] once [client.testConnection()] has settled. *)
Definition testConnection_settle (r : Outcome bool) : Hook World bool :=
  match r with
  | inr result =>
      setIsConnected (Some result) ;;
      (if result then hook_ret tt
       else setConnectionError (Some "Authentication failed. Please check your API key.")) ;;
      hook_ret result
  | inl error =>
      setConnectionError
        (Some match error with
              | ApiError msg _ _ => msg
              | _ => "Failed to connect to n8n instance"
              end) ;;
      setIsConnected (Some false) ;;
      hook_ret false
  end.

(** [requireClient()] *)
Definition requireClient (view : State) : Outcome N8nClient.Client :=
  match client view with
  | Some c => inr c
  | None => inl Unknown
  end.

(** The provider of a fresh start of the application on a store. *)
Definition mount (s : Storage) : World := {| store := s; cells := initial |}.

End WithDefault.

End N8nContext.

(** ** Statements about [N8nClient] *)

Module ClientInv.
Import N8nClient.

(** The axios defaults agree with the configuration: the base URL is
    the configured one without its trailing slash, the key header is
    the configured key. *)
Definition consistent (cl : Client) : Prop :=
  defaults_baseURL cl = stripTrailingSlash (baseUrl (config cl))
  ∧ defaults_key cl = apiKey (config cl).

(** A client after a series of [updateConfig] calls. *)
Definition updated (cfg : N8nClientConfig) (updates : list PartialConfig) : Client :=
  foldl (λ cl p, updateConfig p cl) (create cfg) updates.

End ClientInv.

(** ** [useN8nConnection]: testing and keeping the credentials *)

Module UseN8nConnection.
Import Js Http AsyncStorage.

Definition CREDENTIALS_KEY : string := "@n8n_credentials".

Record N8nCredentials := {
  instanceUrl : string;
  apiKey : string;
}.

Record ConnectionState := {
  isConnected : bool;
  isLoading : bool;
  isTesting : bool;
  error : option string;
  credentials : option N8nCredentials;
}.

Definition initial : ConnectionState := {|
  isConnected := false;
  isLoading := true;
  isTesting := false;
  error := None;
  credentials := None;
|}.

Record World := {
  store : Storage;
  cells : ConnectionState;
}.

(** [setState(prev => ...)] and [setState(value)] *)
Definition setState (f : ConnectionState → ConnectionState) : Hook World unit :=
  λ w, (tt, {| store := store w; cells := f (cells w) |}).
Definition writeStore (f : Storage → Storage) : Hook World unit :=
  λ w, (tt, {| store := f (store w); cells := cells w |}).

(** The URL [testConnection] requests. *)
Definition requestUrl (c : N8nCredentials) : string :=
  N8nClient.stripTrailingSlash (instanceUrl c) +:+ "/api/v1/workflows".

(** The message the [catch] block of [testConnection] chooses. *)
Definition errorMessageOf (err : Rejection) : string :=
  match err with
  | Axios e =>
      if bool_decide (code e = Some "ECONNABORTED") then "Connection timed out"
      else if bool_decide (statusOf e = Some 401) then "Invalid API key"
      else if bool_decide (statusOf e = Some 404) then "Invalid n8n instance URL"
      else if String.eqb (message e) "Network Error" then "Network error - check the URL"
      else orString (Some (message e)) "Connection failed"
  | _ => "Connection failed"
  end.

Section WithJson.
(** [JSON.stringify] and [JSON.parse] on credentials; [parse] may throw. *)
Variable stringify : N8nCredentials → string.
Variable parse : string → Outcome N8nCredentials.

(** [loadCredentials]; [readFails] when [getItem] rejects. *)
Definition loadCredentials (readFails : bool) : Hook World unit :=
  λ w,
    let failed :=
      setState (λ prev, {| isConnected := isConnected prev; isLoading := false;
                           isTesting := isTesting prev;
                           error := Some "Failed to load saved credentials";
                           credentials := credentials prev |}) in
    (if readFails then failed
     else
       match getItem CREDENTIALS_KEY (store w) with
       | Some stored =>
           if truthy (Some stored)
           then match parse stored with
                | inr c =>
                    setState (λ prev, {| isConnected := isConnected prev; isLoading := false;
                                         isTesting := isTesting prev; error := error prev;
                                         credentials := Some c |})
                | inl _ => failed
                end
           else setState (λ prev, {| isConnected := isConnected prev; isLoading := false;
                                     isTesting := isTesting prev; error := error prev;
                                     credentials := credentials prev |})
       | None =>
           setState (λ prev, {| isConnected := isConnected prev; isLoading := false;
                                isTesting := isTesting prev; error := error prev;
                                credentials := credentials prev |})
       end) w.

(** [testConnection(credentials)] up to its [await]. *)
Definition testConnection_call : Hook World unit :=
  setState (λ prev, {| isConnected := isConnected prev; isLoading := isLoading prev;
                       isTesting := true; error := None;
                       credentials := credentials prev |}).

(** The [catch] block of [testConnection]. *)
Definition testConnection_catch (err : Rejection) : Hook World bool :=
  setState (λ prev, {| isConnected := false; isLoading := isLoading prev;
                       isTesting := false; error := Some (errorMessageOf err);
                       credentials := credentials prev |}) ;;
  hook_ret false.

(** [testConnection(credentials)] once the GET has settled: [r] is the
    status of the response or the rejection; [persistFails] is the
    error [setItem] rejects with, if it does. *)
Definition testConnection_settle (c : N8nCredentials) (r : Outcome nat)
    (persistFails : option Rejection) : Hook World bool :=
  match r with
  | inr status =>
      if Nat.eqb status 200
      then match persistFails with
           | None =>
               writeStore (setItem CREDENTIALS_KEY (stringify c)) ;;
               setState (λ prev, {| isConnected := true; isLoading := isLoading prev;
                                    isTesting := false; error := None;
                                    credentials := Some c |}) ;;
               hook_ret true
           | Some err => testConnection_catch err
           end
      else hook_ret false
  | inl err => testConnection_catch err
  end.

(** [disconnect()]; [removeFails] when [removeItem] rejects. *)
Definition disconnect (removeFails : bool) : Hook World unit :=
  if removeFails
  then setState (λ prev, {| isConnected := isConnected prev; isLoading := isLoading prev;
                            isTesting := isTesting prev;
                            error := Some "Failed to disconnect";
                            credentials := credentials prev |})
  else
    (writeStore (removeItem CREDENTIALS_KEY) ;;
     setState (λ _, {| isConnected := false; isLoading := false; isTesting := false;
                       error := None; credentials := None |})).

Definition clearError : Hook World unit :=
  setState (λ prev, {| isConnected := isConnected prev; isLoading := isLoading prev;
                       isTesting := isTesting prev; error := None;
                       credentials := credentials prev |}).

(** The hook of a fresh start of the application on a store, after
    its mount effect. *)
Definition restarted (s : Storage) : World :=
  exec (loadCredentials false) {| store := s; cells := initial |}.

End WithJson.

End UseN8nConnection.

(** ** Formatting on the screens *)

Module Format.

(** Times are milliseconds since the epoch, as [Date.getTime()] and
    [Date.now()] give them for valid dates. *)

(** [end - start], where [end] is the stop time when there is one and
    the current time otherwise. *)
Definition diffMs (start : Z) (stop : option Z) (now : Z) : Z :=
  (default now stop - start)%Z.

(** [Math.round(x / 1000)] for an integer [x] that is not negative. *)
Definition roundSeconds (x : Z) : Z := ((x + 500) `div` 1000)%Z.

(** [formatDuration] of the execution detail screen, on [diffMs]. *)
Definition formatDuration (d : Z) : string :=
  if (d <? 0)%Z then "0ms"
  else if (d <? 1000)%Z then pretty d +:+ "ms"
  else if (d <? 60000)%Z then pretty (roundSeconds d) +:+ "s"
  else if (d <? 3600000)%Z
       then pretty (d `div` 60000)%Z +:+ "m "
            +:+ pretty (roundSeconds (d `mod` 60000)%Z) +:+ "s"
       else pretty (d `div` 3600000)%Z +:+ "h "
            +:+ pretty ((d `mod` 3600000) `div` 60000)%Z +:+ "m".

(** [formatDuration] of the executions list screen: the same without
    the first test. *)
Definition formatDuration_list (d : Z) : string :=
  if (d <? 1000)%Z then pretty d +:+ "ms"
  else if (d <? 60000)%Z then pretty (roundSeconds d) +:+ "s"
  else if (d <? 3600000)%Z
       then pretty (d `div` 60000)%Z +:+ "m "
            +:+ pretty (roundSeconds (d `mod` 60000)%Z) +:+ "s"
       else pretty (d `div` 3600000)%Z +:+ "h "
            +:+ pretty ((d `mod` 3600000) `div` 60000)%Z +:+ "m".




End Format.

(** * Properties *)

(** ** Running a callback body *)

Lemma exec_bind {S A B} (m : Hook S A) (k : A → Hook S B) (s : S) :
  exec (hook_bind m k) s = exec (k (eval m s)) (exec m s).
Proof. unfold exec, eval, hook_bind. by destruct (m s). Qed.

Lemma eval_bind {S A B} (m : Hook S A) (k : A → Hook S B) (s : S) :
  eval (hook_bind m k) s = eval (k (eval m s)) (exec m s).
Proof. unfold exec, eval, hook_bind. by destruct (m s). Qed.

Lemma exec_ret {S A} (a : A) (s : S) : exec (hook_ret a) s = s.
Proof. done. Qed.

Lemma eval_ret {S A} (a : A) (s : S) : eval (hook_ret a) s = a.
Proof. done. Qed.

Lemma truthy_Some_nonempty (c : option string) :
  Js.truthy c = true ↔ ∃ s, c = Some s ∧ s ≠ "".
Proof.
  destruct c as [s|]; simpl.
  - rewrite negb_true_iff. split.
    + intros H. exists s. split; [done|]. by apply String.eqb_neq.
    + intros (s' & [= <-] & Hne). by apply String.eqb_neq.
  - split; [done|]. by intros (s & ? & _).
Qed.

(** ** The executions list controller *)

Module ExecutionsProps.
Import Js UseExecutions.

Section Cells.
Variable opts : Options.

(** What each part of [fetchExecutions] does to the list cell. *)
Lemma call_keeps_executions q rep st :
  executions (exec (fetchExecutions_call opts q rep) st) = executions st.
Proof.
  unfold fetchExecutions_call.
  destruct rep, (getClient opts); reflexivity.
Qed.

Lemma settle_ok_executions p resp st :
  executions (exec (fetchExecutions_settle p (inr resp)) st)
  = if replace p then data resp else executions st ++ data resp.
Proof. unfold fetchExecutions_settle. by destruct (replace p). Qed.

Lemma settle_err_executions p err st :
  executions (exec (fetchExecutions_settle p (inl err)) st) = executions st.
Proof. reflexivity. Qed.

Lemma settle_err_error p err st :
  error (exec (fetchExecutions_settle p (inl err)) st)
  = Some (axiosMessage "Failed to fetch executions" err).
Proof. reflexivity. Qed.

Lemma executions_settle_flags p r st :
  loading (exec (fetchExecutions_settle p r) st) = false
  ∧ refreshing (exec (fetchExecutions_settle p r) st) = false.
Proof.
  destruct r as [err|resp]; [done|].
  unfold fetchExecutions_settle. by destruct (replace p).
Qed.

(** With a client at hand, a call leaves exactly its request in
    flight. *)
Lemma call_issues q rep st :
  getClient opts = inr tt →
  eval (fetchExecutions_call opts q rep) st
  = Some {| params := q; replace := rep |}.
Proof.
  intros Hc. unfold fetchExecutions_call.
  rewrite !eval_bind, Hc. reflexivity.
Qed.

Lemma executions_call_without_client q rep st err :
  getClient opts = inl err →
  eval (fetchExecutions_call opts q rep) st = None
  ∧ error (exec (fetchExecutions_call opts q rep) st)
    = Some "Failed to fetch executions"
  ∧ loading (exec (fetchExecutions_call opts q rep) st) = false
  ∧ refreshing (exec (fetchExecutions_call opts q rep) st) = false.
Proof.
  intros Hc. unfold fetchExecutions_call.
  rewrite !eval_bind, !exec_bind, Hc.
  assert (err = PlainError "Either apiClient or baseUrl and apiKey must be provided") as ->.
  { revert Hc. unfold getClient, getClientWith.
    repeat case_match; congruence. }
  by destruct rep.
Qed.

(** *** Requests in flight *)

Lemma issue_with_client q rep w :
  getClient opts = inr tt →
  issue (fetchExecutions_call opts q rep) w
  = {| hook := exec (fetchExecutions_call opts q rep) (hook w);
       inflight := inflight w ++ [ {| params := q; replace := rep |} ] |}.
Proof.
  intros Hc. unfold issue.
  pose proof (call_issues q rep (hook w) Hc) as He.
  unfold eval, exec in *.
  destruct (fetchExecutions_call opts q rep (hook w)) as [o s]; simpl in *.
  by subst o.
Qed.

Lemma step_settles w i r p :
  inflight w !! i = Some p →
  step opts w (Settles i r)
  = {| hook := exec (fetchExecutions_settle p r) (hook w);
       inflight := delete i (inflight w) |}.
Proof. intros H. unfold step. by rewrite H. Qed.

End Cells.

Lemma lookup_inflight_last {A} (l : list A) (x : A) (k : list A) :
  (l ++ x :: k) !! length l = Some x.
Proof. by rewrite list_lookup_middle. Qed.

Lemma delete_inflight_last {A} (l : list A) (x : A) (k : list A) :
  delete (length l) (l ++ x :: k) = l ++ k.
Proof. by rewrite delete_middle. Qed.

Lemma lookup_inflight_second {A} (l : list A) (x y : A) :
  (l ++ [x; y]) !! S (length l) = Some y.
Proof. induction l as [|a l IH]; [done|]. exact IH. Qed.

Lemma delete_inflight_second {A} (l : list A) (x y : A) :
  delete (S (length l)) (l ++ [x; y]) = l ++ [x].
Proof.
  induction l as [|a l IH]; [done|].
  simpl. f_equal. exact IH.
Qed.

(** *** Stale results (C1) *)

(** A load-more then a change of the status filter leave two requests
    in flight, the load-more first, and an empty list. *)
Lemma loadMore_then_setFilter opts w f :
  getClient opts = inr tt →
  loading (hook w) = false →
  hasMore (hook w) = true →
  f ≠ statusFilter (hook w) →
  ∃ s2,
    step opts (step opts w CallLoadMore) (CallSetStatusFilter f)
    = {| hook := s2;
         inflight := inflight w ++
           [ {| params := {| q_limit := initialLimit opts; q_cursor := cursor (hook w);
                             q_status := statusFilter (hook w);
                             q_workflowId := workflowFilter (hook w) |};
                replace := false |};
             {| params := {| q_limit := initialLimit opts; q_cursor := None;
                             q_status := f;
                             q_workflowId := workflowFilter (hook w) |};
                replace := true |} ] |}
    ∧ executions s2 = [].
Proof.
  intros Hc Hl Hm Hf. eexists. split.
  - unfold step at 2. unfold loadMore. rewrite Hl, Hm. simpl.
    rewrite issue_with_client by done.
    unfold step, rerender. simpl.
    rewrite decide_False.
    2:{ unfold fetchExecutions_call. rewrite !exec_bind, Hc. simpl. by intros [? _]. }
    unfold filterEffect. rewrite issue_with_client by done. simpl.
    rewrite <- app_assoc. simpl. f_equal.
    unfold fetchExecutions_call. rewrite !exec_bind, Hc. simpl. reflexivity.
  - by rewrite call_keeps_executions.
Qed.

(** C1, as the code has it: the hook keeps no generation with a request.
    When a load-more is in flight and the status filter is set to a new
    value, the list is cleared and the reload for the new filter is
    issued; the load-more's page is appended to the list as it stands
    when it arrives.  Arriving first, it is the whole list until the
    reload replaces it; arriving after the reload, it stays at the tail
    of the reloaded page. *)
Theorem C1_stale_page_is_appended opts w f r r' :
  getClient opts = inr tt →
  loading (hook w) = false →
  hasMore (hook w) = true →
  f ≠ statusFilter (hook w) →
  let n := length (inflight w) in
  let w2 := step opts (step opts w CallLoadMore) (CallSetStatusFilter f) in
  executions (hook w2) = []
  ∧ length (inflight w2) = S (S n)
  ∧ executions (hook (step opts w2 (Settles n (inr r)))) = data r
  ∧ executions (hook (foldl (step opts) w2 [Settles n (inr r); Settles n (inr r')]))
    = data r'
  ∧ executions (hook (foldl (step opts) w2 [Settles (S n) (inr r'); Settles n (inr r)]))
    = data r' ++ data r.
Proof.
  intros Hc Hl Hm Hf n w2.
  destruct (loadMore_then_setFilter opts w f Hc Hl Hm Hf) as (s2 & Hw2 & Hnil).
  fold w2 in Hw2. clearbody w2. subst w2 n.
  set (p := {| params := _; replace := false |}).
  set (q := {| params := _; replace := true |}).
  split; [exact Hnil|].
  split; [simpl; rewrite length_app; simpl; lia|].
  split.
  { erewrite step_settles by apply lookup_inflight_last. cbn [hook].
    rewrite settle_ok_executions. cbn [replace p].
    by rewrite Hnil. }
  split.
  { cbn [foldl].
    rewrite (step_settles opts {| hook := s2 |} _ _ p) by apply lookup_inflight_last.
    cbn [inflight]. rewrite delete_inflight_last.
    rewrite (step_settles opts _ _ _ q) by apply lookup_inflight_last. cbn [hook].
    by rewrite settle_ok_executions. }
  cbn [foldl].
  rewrite (step_settles opts {| hook := s2 |} _ _ q) by apply lookup_inflight_second.
  cbn [inflight]. rewrite delete_inflight_second.
  rewrite (step_settles opts _ _ _ p) by apply lookup_inflight_last. cbn [hook].
  rewrite !settle_ok_executions. reflexivity.
Qed.

(** The theorem at the scenario of the specification: the unfiltered
    list [a; b] is loaded, a load-more is pending, the status filter is
    set to [error]; the reload answers [b], then the load-more answers
    [c]: the list is [b; c]. *)
Lemma C1_witness_scenario_B :
  getClient Fixtures.E.opts = inr tt
  ∧ loading (hook Fixtures.E.loaded) = false
  ∧ hasMore (hook Fixtures.E.loaded) = true
  ∧ Some error_ ≠ statusFilter (hook Fixtures.E.loaded)
  ∧ executions (hook (foldl (step Fixtures.E.opts)
      (step Fixtures.E.opts (step Fixtures.E.opts Fixtures.E.loaded CallLoadMore)
         (CallSetStatusFilter (Some error_)))
      [Settles 1 (inr Fixtures.E.page_errors); Settles 0 (inr Fixtures.E.page2)]))
    = [Fixtures.E.exec_b; Fixtures.E.exec_c].
Proof.
  assert (getClient Fixtures.E.opts = inr tt) as Hc by reflexivity.
  assert (loading (hook Fixtures.E.loaded) = false) as Hl by reflexivity.
  assert (hasMore (hook Fixtures.E.loaded) = true) as Hm by reflexivity.
  assert (Some error_ ≠ statusFilter (hook Fixtures.E.loaded)) as Hf by discriminate.
  split; [exact Hc|]. split; [exact Hl|]. split; [exact Hm|]. split; [exact Hf|].
  exact (proj2 (proj2 (proj2 (proj2
    (C1_stale_page_is_appended Fixtures.E.opts Fixtures.E.loaded (Some error_)
       Fixtures.E.page2 Fixtures.E.page_errors Hc Hl Hm Hf))))).
Defined.

(** C1 as stated does not hold: it would have the list unchanged when
    the stale load-more settles.  At the scenario above the list is
    empty before and [c] after. *)
Lemma C1_stale_suppression_fails :
  ¬ (∀ opts (w : World) f r,
       getClient opts = inr tt →
       loading (hook w) = false →
       hasMore (hook w) = true →
       f ≠ statusFilter (hook w) →
       let w2 := step opts (step opts w CallLoadMore) (CallSetStatusFilter f) in
       executions (hook (step opts w2 (Settles (length (inflight w)) (inr r))))
       = executions (hook w2)).
Proof.
  intros H.
  specialize (H Fixtures.E.opts Fixtures.E.loaded (Some error_) Fixtures.E.page2).
  assert (Some error_ ≠ statusFilter (hook Fixtures.E.loaded)) as Hf by discriminate.
  specialize (H eq_refl eq_refl eq_refl Hf).
  vm_compute in H. discriminate H.
Qed.

(** *** Two refreshes in a row (C2) *)

Lemma issue_some (m : Hook State (option Pending)) w p :
  eval m (hook w) = Some p →
  issue m w = {| hook := exec m (hook w); inflight := inflight w ++ [p] |}.
Proof.
  unfold issue, eval, exec. destruct (m (hook w)) as [o s]; simpl.
  by intros ->.
Qed.

Lemma refresh_issues opts view st :
  getClient opts = inr tt →
  eval (refresh opts view) st
  = Some {| params := {| q_limit := initialLimit opts; q_cursor := None;
                         q_status := statusFilter view;
                         q_workflowId := workflowFilter view |};
            replace := true |}.
Proof.
  intros Hc. unfold refresh. rewrite !eval_bind. by apply call_issues.
Qed.

Lemma refresh_keeps_executions opts view st :
  executions (exec (refresh opts view) st) = executions st.
Proof.
  unfold refresh. rewrite !exec_bind. by rewrite call_keeps_executions.
Qed.

(** C2, as the code has it: two calls of [refresh] from the same render
    leave two replacing requests in flight and the list as it was.
    Each answer replaces the list when it arrives, neither is dropped:
    after the first answer the list is that page, after both it is the
    page that arrived last, whichever the order.  The pages are never
    concatenated. *)
Theorem C2_both_refreshes_replace opts w r1 r2 :
  getClient opts = inr tt →
  let n := length (inflight w) in
  let w2 := issue (refresh opts (hook w)) (issue (refresh opts (hook w)) w) in
  length (inflight w2) = S (S n)
  ∧ executions (hook w2) = executions (hook w)
  ∧ executions (hook (step opts w2 (Settles n (inr r1)))) = data r1
  ∧ executions (hook (foldl (step opts) w2 [Settles n (inr r1); Settles n (inr r2)]))
    = data r2
  ∧ executions (hook (foldl (step opts) w2 [Settles (S n) (inr r2); Settles n (inr r1)]))
    = data r1.
Proof.
  intros Hc n w2. subst w2 n.
  rewrite (issue_some _ w _ (refresh_issues opts (hook w) _ Hc)).
  rewrite (issue_some _ _ _ (refresh_issues opts (hook w) _ Hc)).
  cbn [hook inflight]. rewrite <- app_assoc. cbn [app].
  set (q := {| params := _; replace := true |}).
  set (s2 := exec _ (exec _ _)).
  assert (executions s2 = executions (hook w)) as Hkeep.
  { subst s2. by rewrite !refresh_keeps_executions. }
  split; [rewrite length_app; simpl; lia|].
  split; [exact Hkeep|].
  split.
  { rewrite (step_settles opts _ _ _ q) by apply lookup_inflight_last.
    cbn [hook]. by rewrite settle_ok_executions. }
  split; cbn [foldl].
  - rewrite (step_settles opts {| hook := s2 |} _ _ q) by apply lookup_inflight_last.
    cbn [inflight]. rewrite delete_inflight_last.
    rewrite (step_settles opts _ _ _ q) by apply lookup_inflight_last.
    cbn [hook]. by rewrite settle_ok_executions.
  - rewrite (step_settles opts {| hook := s2 |} _ _ q) by apply lookup_inflight_second.
    cbn [inflight]. rewrite delete_inflight_second.
    rewrite (step_settles opts _ _ _ q) by apply lookup_inflight_last.
    cbn [hook]. by rewrite settle_ok_executions.
Qed.

(** The theorem on the loaded list [a; b]: the first refresh answers
    [c], the second answers [b]; the list is [c], then [b]. *)
Lemma C2_witness_loaded_list :
  getClient Fixtures.E.opts = inr tt
  ∧ let w2 := issue (refresh Fixtures.E.opts (hook Fixtures.E.loaded))
                (issue (refresh Fixtures.E.opts (hook Fixtures.E.loaded))
                   Fixtures.E.loaded) in
    executions (hook (step Fixtures.E.opts w2 (Settles 0 (inr Fixtures.E.page2))))
    = [Fixtures.E.exec_c]
    ∧ executions (hook (foldl (step Fixtures.E.opts) w2
          [Settles 0 (inr Fixtures.E.page2); Settles 0 (inr Fixtures.E.page_errors)]))
      = [Fixtures.E.exec_b].
Proof.
  assert (getClient Fixtures.E.opts = inr tt) as Hc by reflexivity.
  split; [exact Hc|].
  pose proof (C2_both_refreshes_replace Fixtures.E.opts Fixtures.E.loaded
                Fixtures.E.page2 Fixtures.E.page_errors Hc) as H.
  exact (conj (proj1 (proj2 (proj2 H))) (proj1 (proj2 (proj2 (proj2 H))))).
Defined.

(** C2 as stated does not hold: it would have one of the two answers
    dropped, that is, the list unchanged by it.  On the loaded list
    [a; b], with answers [c] and [b], the list changes twice. *)
Lemma C2_no_refresh_result_is_dropped :
  ¬ (∀ opts (w : World) r1 r2,
       getClient opts = inr tt →
       let n := length (inflight w) in
       let w2 := issue (refresh opts (hook w))
                   (issue (refresh opts (hook w)) w) in
       let w3 := step opts w2 (Settles n (inr r1)) in
       let w4 := step opts w3 (Settles n (inr r2)) in
       executions (hook w3) = executions (hook w2)
       ∨ executions (hook w4) = executions (hook w3)).
Proof.
  intros H.
  specialize (H Fixtures.E.opts Fixtures.E.loaded
                Fixtures.E.page2 Fixtures.E.page_errors eq_refl).
  vm_compute in H. by destruct H.
Qed.

(** *** The guard of [loadMore] (C6) *)

Lemma executions_loadMore_guard_closed opts view st :
  loading view = true ∨ hasMore view = false →
  loadMore opts view st = (None, st).
Proof.
  intros [H|H]; unfold loadMore; rewrite H; [done|].
  by rewrite orb_true_r.
Qed.

(** Past the guard, [loadMore] sends the stored cursor and the current
    filters, and sets neither [loading] nor [hasMore]: after a render
    the guard is as open as before. *)
Lemma executions_loadMore_guard_open opts view st :
  getClient opts = inr tt →
  loading view = false →
  hasMore view = true →
  eval (loadMore opts view) st
  = Some {| params := {| q_limit := initialLimit opts; q_cursor := cursor view;
                         q_status := statusFilter view;
                         q_workflowId := workflowFilter view |};
            replace := false |}
  ∧ loading (exec (loadMore opts view) st) = loading st
  ∧ hasMore (exec (loadMore opts view) st) = hasMore st
  ∧ cursor (exec (loadMore opts view) st) = cursor st
  ∧ executions (exec (loadMore opts view) st) = executions st.
Proof.
  intros Hc Hl Hm. unfold loadMore. rewrite Hl, Hm. cbn [orb negb].
  split; [by apply call_issues|].
  unfold fetchExecutions_call. rewrite !exec_bind, Hc. done.
Qed.

Lemma loadMore_appends p resp st :
  replace p = false →
  executions (exec (fetchExecutions_settle p (inr resp)) st)
  = executions st ++ data resp.
Proof. intros H. by rewrite settle_ok_executions, H. Qed.

(** C6 at its failing input.  The list [a; b] is loaded with cursor
    ["c1"]; [loadMore] is called and, while that request is in flight,
    called again.  The second call is not a no-op: it sends a second
    request with the same cursor, and when both are answered with the
    page [c], the list is [a; b; c; c]. *)
Theorem C6_loadMore_during_loadMore :
  let w1 := step Fixtures.E.opts Fixtures.E.loaded CallLoadMore in
  let w2 := step Fixtures.E.opts w1 CallLoadMore in
  length (inflight w1) = 1
  ∧ loading (hook w1) = false
  ∧ inflight w2 = inflight w1 ++ inflight w1
  ∧ (q_cursor ∘ params) <$> inflight w2 = [Some "c1"; Some "c1"]
  ∧ executions (hook (foldl (step Fixtures.E.opts) w2
        [Settles 0 (inr Fixtures.E.page2); Settles 0 (inr Fixtures.E.page2)]))
    = [Fixtures.E.exec_a; Fixtures.E.exec_b; Fixtures.E.exec_c; Fixtures.E.exec_c].
Proof. vm_compute. done. Qed.

(** *** Failed fetches (C8) *)

(** C8: a refresh and a load-more leave the list as it is when they
    are called, and a request that fails, whichever kind it was and
    whatever the cells hold when it fails, leaves the list untouched
    and stores a message in [error]. *)
Theorem C8_failure_keeps_snapshot opts view st p err :
  executions (exec (refresh opts view) st) = executions st
  ∧ executions (exec (loadMore opts view) st) = executions st
  ∧ executions (exec (fetchExecutions_settle p (inl err)) st) = executions st
  ∧ error (exec (fetchExecutions_settle p (inl err)) st)
    = Some (axiosMessage "Failed to fetch executions" err)
  ∧ error (exec (fetchExecutions_settle p (inl err)) st) ≠ None.
Proof.
  split; [apply refresh_keeps_executions|].
  split.
  { unfold loadMore. destruct (loading view || negb (hasMore view)); [done|].
    apply call_keeps_executions. }
  rewrite settle_err_executions, settle_err_error. done.
Qed.

End ExecutionsProps.

(** ** The execution detail controller *)

Module DetailProps.
Import Js UseExecution.

Lemma detail_settle_flags r st :
  loading (exec (fetchExecution_settle r) st) = false
  ∧ refreshing (exec (fetchExecution_settle r) st) = false.
Proof. by destruct r. Qed.

Lemma detail_call_without_client opts isRefresh st :
  eval (fetchExecution_call opts isRefresh) st = false →
  loading (exec (fetchExecution_call opts isRefresh) st) = false
  ∧ refreshing (exec (fetchExecution_call opts isRefresh) st) = false.
Proof.
  unfold fetchExecution_call. rewrite !eval_bind, !exec_bind.
  destruct (getClient opts) as [err|[]]; [|done].
  by destruct isRefresh.
Qed.

(** [retry] does nothing when no execution is displayed. *)
Lemma retry_without_execution opts view st :
  execution view = None →
  retry_call opts view st = (inl None, st).
Proof. intros H. unfold retry_call. by rewrite H. Qed.

(** C9: with an execution displayed and a client at hand, [retry]
    sends its request and leaves the displayed execution alone; when
    the server answers with a record, that record, as it is, becomes
    the displayed execution and is the value handed to the caller.
    Nothing of the execution displayed before is kept. *)
Theorem C9_retry_shows_returned_execution opts view st e0 e :
  execution view = Some e0 →
  getClient opts = inr tt →
  let s1 := exec (retry_call opts view) st in
  let s2 := exec (retry_settle (inr e)) s1 in
  eval (retry_call opts view) st = inr tt
  ∧ execution s1 = execution st
  ∧ retrying s1 = true
  ∧ execution s2 = Some e
  ∧ eval (retry_settle (inr e)) s1 = Some e
  ∧ retrying s2 = false
  ∧ retryError s2 = None.
Proof.
  intros Hv Hc s1 s2. subst s2 s1.
  unfold retry_call. rewrite Hv.
  rewrite !eval_bind, !exec_bind, Hc.
  repeat split.
Qed.

(** Scenario D: ["e1"] is displayed, the retry answers
    [{id: "e2", retryOf: "e1"}]; the hook displays and returns ["e2"]. *)
Lemma C9_witness_scenario_D :
  execution Fixtures.D.showing_e1 = Some Fixtures.D.exec_e1
  ∧ getClient Fixtures.D.opts = inr tt
  ∧ let s1 := exec (retry_call Fixtures.D.opts Fixtures.D.showing_e1) Fixtures.D.showing_e1 in
    execution (exec (retry_settle (inr Fixtures.D.exec_e2)) s1) = Some Fixtures.D.exec_e2
    ∧ eval (retry_settle (inr Fixtures.D.exec_e2)) s1 = Some Fixtures.D.exec_e2.
Proof.
  assert (execution Fixtures.D.showing_e1 = Some Fixtures.D.exec_e1) as Hv by reflexivity.
  assert (getClient Fixtures.D.opts = inr tt) as Hc by reflexivity.
  split; [exact Hv|]. split; [exact Hc|].
  pose proof (C9_retry_shows_returned_execution Fixtures.D.opts Fixtures.D.showing_e1
                Fixtures.D.showing_e1 Fixtures.D.exec_e1 Fixtures.D.exec_e2 Hv Hc) as H.
  exact (conj (proj1 (proj2 (proj2 (proj2 H))))
              (proj1 (proj2 (proj2 (proj2 (proj2 H)))))).
Defined.

End DetailProps.

(** ** The workflows list controller *)

Module WorkflowsProps.
Import Js UseWorkflows.

Lemma workflows_settle_flags p r st :
  loading (exec (fetchWorkflows_settle p r) st) = false
  ∧ refreshing (exec (fetchWorkflows_settle p r) st) = false.
Proof.
  destruct r as [err|resp]; [done|].
  unfold fetchWorkflows_settle.
  by destruct (isRefresh p), (truthy (nextCursor resp)).
Qed.

Lemma settle_ok_hasMore p resp st :
  hasMore (exec (fetchWorkflows_settle p (inr resp)) st) = truthy (nextCursor resp).
Proof.
  unfold fetchWorkflows_settle.
  by destruct (isRefresh p), (truthy (nextCursor resp)).
Qed.

Lemma settle_ok_workflows p resp st :
  workflows (exec (fetchWorkflows_settle p (inr resp)) st)
  = if isRefresh p then data resp else workflows st ++ data resp.
Proof.
  unfold fetchWorkflows_settle.
  by destruct (isRefresh p), (truthy (nextCursor resp)).
Qed.

(** The guard of [loadMore]: closed while [loading] or [refreshing] is
    set in the render, or [hasMore] is not. *)
Lemma workflows_loadMore_guard_closed opts view st :
  loading view = true ∨ refreshing view = true ∨ hasMore view = false →
  loadMore opts view st = (None, st).
Proof.
  unfold loadMore.
  intros [H|[H|H]]; rewrite H; cbn [negb andb]; [done| |];
    by rewrite ?andb_false_r.
Qed.

(** Past the guard, [loadMore] sets [loading]: after a render the
    guard is closed while this request is in flight. *)
Lemma workflows_loadMore_guard_open opts view st :
  loading view = false →
  refreshing view = false →
  hasMore view = true →
  eval (loadMore opts view) st
  = Some {| isRefresh := false;
            params := {| p_limit := pageSize opts;
                         p_cursor := if truthy (cursor view) then cursor view else None;
                         p_filter := if truthy (Some (searchQuery view))
                                     then Some (searchQuery view) else None |} |}
  ∧ loading (exec (loadMore opts view) st) = true
  ∧ workflows (exec (loadMore opts view) st) = workflows st.
Proof.
  intros Hl Hr Hm. unfold loadMore. rewrite Hl, Hr, Hm. cbn [negb andb].
  done.
Qed.

(** *** [toggleActive] (C3, C4) *)

Lemma toggle_lookup wid u st i :
  workflows (exec (toggleActive_settle wid (inr u)) st) !! i
  = (λ w, if String.eqb (id w) wid then withActive (active u) w else w)
      <$> workflows st !! i.
Proof. unfold toggleActive_settle. cbn. apply list_lookup_fmap. Qed.

(** C3, as the code has it: [toggleActive] changes nothing when it is
    called; the list shows the old value while the request is in
    flight.  When the server answers, the entity with that id takes
    the [active] value of the answer, at its place in the list, and
    entities with another id are left as they are. *)
Theorem C3_toggle_applies_on_answer wid a u st i w :
  workflows st !! i = Some w →
  exec (toggleActive_call wid a) st = st
  ∧ workflows (exec (toggleActive_call wid a) st) !! i = Some w
  ∧ let st' := exec (toggleActive_settle wid (inr u)) (exec (toggleActive_call wid a) st) in
    length (workflows st') = length (workflows st)
    ∧ (id w = wid → workflows st' !! i = Some (withActive (active u) w))
    ∧ (id w ≠ wid → workflows st' !! i = Some w)
    ∧ eval (toggleActive_settle wid (inr u)) (exec (toggleActive_call wid a) st) = inr tt.
Proof.
  intros Hi. split; [done|]. split; [done|].
  cbn zeta. unfold toggleActive_call. rewrite exec_ret.
  split.
  { unfold toggleActive_settle. cbn. apply length_fmap. }
  split; [|split; [|done]].
  - intros Hid. rewrite toggle_lookup, Hi. cbn.
    apply String.eqb_eq in Hid. by rewrite Hid.
  - intros Hid. rewrite toggle_lookup, Hi. cbn.
    apply String.eqb_neq in Hid. by rewrite Hid.
Qed.

(** Scenario C on the loaded list: ["w1"] is active, the screen asks
    for [active: false]; the list still shows [true] after the call
    and shows the server's [false] after the answer. *)
Lemma C3_witness_scenario_C :
  workflows Fixtures.W.loaded !! 0 = Some Fixtures.W.wf1
  ∧ workflows (exec (toggleActive_call "w1" false) Fixtures.W.loaded) !! 0
    = Some Fixtures.W.wf1
  ∧ workflows (exec (toggleActive_settle "w1" (inr (withActive false Fixtures.W.wf1)))
                 (exec (toggleActive_call "w1" false) Fixtures.W.loaded)) !! 0
    = Some (withActive false Fixtures.W.wf1).
Proof.
  assert (workflows Fixtures.W.loaded !! 0 = Some Fixtures.W.wf1) as Hi by reflexivity.
  pose proof (C3_toggle_applies_on_answer "w1" false (withActive false Fixtures.W.wf1)
                Fixtures.W.loaded 0 Fixtures.W.wf1 Hi) as H.
  split; [exact Hi|].
  split; [exact (proj1 (proj2 H))|].
  exact (proj1 (proj2 (proj2 (proj2 H))) eq_refl).
Defined.

(** C3 as stated does not hold: right after the call, before the
    server answers, the entity would show the requested value.  On
    the loaded list ["w1"] still shows [active = true] after
    [toggleActive("w1", false)] is called. *)
Lemma C3_toggle_is_not_optimistic :
  ¬ (∀ wid a st i w,
       workflows st !! i = Some w →
       id w = wid →
       active <$> workflows (exec (toggleActive_call wid a) st) !! i = Some a).
Proof.
  intros H.
  specialize (H "w1" false Fixtures.W.loaded 0 Fixtures.W.wf1 eq_refl eq_refl).
  vm_compute in H. discriminate H.
Qed.

(** C4, as the code has it: when the server call rejects, the list
    is what it was before the mutation, so is the entity's [active]
    field, and the message of the error is stored in [error].  The
    error is thrown again: the promise [toggleActive] gave to its
    caller rejects with it.  The caller in the workflows screen,
    [handleToggleActive], catches it, and its own promise resolves. *)
Theorem C4_toggle_rejection_rethrows wid a err st :
  let s0 := exec (toggleActive_call wid a) st in
  let s1 := exec (toggleActive_settle wid (inl err)) s0 in
  workflows s1 = workflows st
  ∧ error s1 = Some (errorMessage "Failed to update workflow" err)
  ∧ error s1 ≠ None
  ∧ eval (toggleActive_settle wid (inl err)) s0 = inl err
  ∧ eval (handleToggleActive_settle wid (inl err)) s0 = inr tt
  ∧ exec (handleToggleActive_settle wid (inl err)) s0 = s1.
Proof. cbn zeta. repeat split. done. Qed.

(** C4 as stated does not hold: the promise of [toggleActive] would
    not reject.  With a network error as the rejection it does. *)
Lemma C4_toggle_error_is_rethrown :
  ¬ (∀ wid a err st,
       let s0 := exec (toggleActive_call wid a) st in
       let s1 := exec (toggleActive_settle wid (inl err)) s0 in
       workflows s1 = workflows st
       ∧ error s1 ≠ None
       ∧ eval (toggleActive_settle wid (inl err)) s0 = inr tt).
Proof.
  intros H.
  destruct (H "w1" false (AxiosError None "Network Error") Fixtures.W.loaded)
    as (_ & _ & Hret).
  vm_compute in Hret. discriminate Hret.
Qed.

(** Without a configured client [n8nApi.toggleWorkflowActive] rejects
    before anything is sent, and [toggleActive] takes the same path. *)
Lemma toggle_not_configured server wid a :
  N8nApi.toggleWorkflowActive false server wid a = inl N8nApi.notConfigured.
Proof. by destruct a. Qed.

End WorkflowsProps.

(** ** Properties shared by the controllers *)

Module ControllersProps.
Import Js.

(** *** [hasMore] after a page (C5) *)

(** In [useExecutions], [hasMore] after a page is
    [!!nextCursor && data.length > 0]. *)
Lemma executions_hasMore p resp st :
  UseExecutions.hasMore (exec (UseExecutions.fetchExecutions_settle p (inr resp)) st) = true
  ↔ (∃ c, UseExecutions.nextCursor resp = Some c ∧ c ≠ "")
    ∧ UseExecutions.data resp ≠ [].
Proof.
  assert (UseExecutions.hasMore
            (exec (UseExecutions.fetchExecutions_settle p (inr resp)) st)
          = truthy (UseExecutions.nextCursor resp)
            && bool_decide (0 < length (UseExecutions.data resp))) as ->.
  { unfold UseExecutions.fetchExecutions_settle.
    by destruct (UseExecutions.replace p). }
  rewrite andb_true_iff, truthy_Some_nonempty, bool_decide_eq_true.
  destruct (UseExecutions.data resp) as [|e l]; simpl.
  - split; [intros [_ ?]; lia | by intros [_ ?]].
  - split; [intros [? _]; by split | intros [? _]; split; [done|lia]].
Qed.

(** In [useWorkflows], [hasMore] after a page is the truth value of
    [nextCursor] alone. *)
Lemma workflows_hasMore p resp st :
  UseWorkflows.hasMore (exec (UseWorkflows.fetchWorkflows_settle p (inr resp)) st) = true
  ↔ ∃ c, N8nApi.nextCursor resp = Some c ∧ c ≠ "".
Proof. by rewrite WorkflowsProps.settle_ok_hasMore, truthy_Some_nonempty. Qed.

(** C5 at its failing input: a page with the cursor ["c1"] and no
    items.  [useExecutions] takes the list as exhausted; [useWorkflows]
    sets [hasMore], stores the cursor, and its [loadMore] stays open. *)
Theorem C5_empty_page_with_cursor pe pw se sw :
  let answer_e := {| UseExecutions.data := []; UseExecutions.nextCursor := Some "c1";
                     UseExecutions.numberOfTotalRecords := None |} in
  let se' := exec (UseExecutions.fetchExecutions_settle pe (inr answer_e)) se in
  let sw' := exec (UseWorkflows.fetchWorkflows_settle pw
                     (inr Fixtures.W.empty_page_with_cursor)) sw in
  UseExecutions.hasMore se' = false
  ∧ UseWorkflows.hasMore sw' = true
  ∧ UseWorkflows.cursor sw' = Some "c1"
  ∧ ∀ opts st, eval (UseWorkflows.loadMore opts sw') st ≠ None.
Proof.
  cbn zeta.
  split; [unfold UseExecutions.fetchExecutions_settle;
          by destruct (UseExecutions.replace pe)|].
  set (sw' := exec _ sw).
  assert (UseWorkflows.hasMore sw' = true ∧ UseWorkflows.cursor sw' = Some "c1"
          ∧ UseWorkflows.loading sw' = false ∧ UseWorkflows.refreshing sw' = false)
    as (Hm & Hcur & Hl & Hr).
  { subst sw'. unfold UseWorkflows.fetchWorkflows_settle.
    by destruct (UseWorkflows.isRefresh pw). }
  split; [exact Hm|]. split; [exact Hcur|].
  intros opts st.
  destruct (WorkflowsProps.workflows_loadMore_guard_open opts sw' st Hl Hr Hm) as [-> _].
  done.
Qed.

(** *** Changing a filter (C7) *)

(** C7: each of the three filter setters, on any state and for any
    value, leaves an empty list, no cursor and [hasMore = true] as soon
    as it returns, and stores the value; the reload the next render
    issues for the new filter does not change that while it is in
    flight. *)
Theorem C7_filter_change_clears :
  (∀ opts f st,
     let s := exec (UseExecutions.handleSetStatusFilter f) st in
     let s' := exec (UseExecutions.filterEffect opts s) s in
     UseExecutions.statusFilter s = f
     ∧ (UseExecutions.executions s = [] ∧ UseExecutions.cursor s = None
        ∧ UseExecutions.hasMore s = true)
     ∧ (UseExecutions.executions s' = [] ∧ UseExecutions.cursor s' = None
        ∧ UseExecutions.hasMore s' = true))
  ∧ (∀ opts wf st,
       let s := exec (UseExecutions.handleSetWorkflowFilter wf) st in
       let s' := exec (UseExecutions.filterEffect opts s) s in
       UseExecutions.workflowFilter s = wf
       ∧ (UseExecutions.executions s = [] ∧ UseExecutions.cursor s = None
          ∧ UseExecutions.hasMore s = true)
       ∧ (UseExecutions.executions s' = [] ∧ UseExecutions.cursor s' = None
          ∧ UseExecutions.hasMore s' = true))
  ∧ (∀ opts query st,
       let s := exec (UseWorkflows.searchWorkflows query) st in
       let s' := exec (UseWorkflows.searchEffect opts s) s in
       UseWorkflows.searchQuery s = query
       ∧ (UseWorkflows.workflows s = [] ∧ UseWorkflows.cursor s = None
          ∧ UseWorkflows.hasMore s = true)
       ∧ (UseWorkflows.workflows s' = [] ∧ UseWorkflows.cursor s' = None
          ∧ UseWorkflows.hasMore s' = true)).
Proof.
  split; [|split].
  - intros opts f st s s'. split; [done|]. split; [done|].
    subst s'. unfold UseExecutions.filterEffect, UseExecutions.fetchExecutions_call.
    rewrite !exec_bind. by destruct (UseExecutions.getClient opts).
  - intros opts wf st s s'. split; [done|]. split; [done|].
    subst s'. unfold UseExecutions.filterEffect, UseExecutions.fetchExecutions_call.
    rewrite !exec_bind. by destruct (UseExecutions.getClient opts).
  - intros opts query st s s'. done.
Qed.

(** *** The flags after a fetch (C10) *)

(** C10: when a fetch of the executions list hook or of the execution
    detail hook is over, by an answer, by a rejection, or at once
    because no client could be built, [loading] and [refreshing] are
    both [false]. *)
Theorem C10_flags_down_after_fetch :
  (∀ p r st,
     let s := exec (UseExecutions.fetchExecutions_settle p r) st in
     UseExecutions.loading s = false ∧ UseExecutions.refreshing s = false)
  ∧ (∀ r st,
       let s := exec (UseExecution.fetchExecution_settle r) st in
       UseExecution.loading s = false ∧ UseExecution.refreshing s = false)
  ∧ (∀ opts q rep st,
       let s := exec (UseExecutions.fetchExecutions_call opts q rep) st in
       match eval (UseExecutions.fetchExecutions_call opts q rep) st with
       | Some _ => True
       | None => UseExecutions.loading s = false ∧ UseExecutions.refreshing s = false
       end)
  ∧ (∀ opts isRefresh st,
       let s := exec (UseExecution.fetchExecution_call opts isRefresh) st in
       if eval (UseExecution.fetchExecution_call opts isRefresh) st
       then True
       else UseExecution.loading s = false ∧ UseExecution.refreshing s = false).
Proof.
  split; [|split; [|split]].
  - intros p r st. apply ExecutionsProps.executions_settle_flags.
  - intros r st. apply DetailProps.detail_settle_flags.
  - intros opts q rep st. cbn zeta.
    destruct (UseExecutions.getClient opts) as [err|[]] eqn:Hc.
    + destruct (ExecutionsProps.executions_call_without_client opts q rep st err Hc)
        as (-> & _ & Hl & Hr).
      by split.
    + by rewrite (ExecutionsProps.call_issues opts q rep st Hc).
  - intros opts isRefresh st. cbn zeta.
    destruct (eval (UseExecution.fetchExecution_call opts isRefresh) st) eqn:He; [done|].
    by apply DetailProps.detail_call_without_client.
Qed.

End ControllersProps.

(** ** More on the executions list controller *)

Module ExecutionsMore.
Import Js UseExecutions Reachable.

(** *** Pages in order *)

Lemma settle_all_snoc answers a st :
  settle_all (answers ++ [a]) st
  = exec (fetchExecutions_settle a.1 (inr a.2)) (settle_all answers st).
Proof. unfold settle_all. by rewrite foldl_app. Qed.

(** Answers to load-more requests, settled in any number, extend the
    list by their pages in the order they arrive: nothing is dropped,
    reordered or deduplicated. *)
Theorem loadMore_pages_concatenate answers st :
  Forall (λ a, replace a.1 = false) answers →
  executions (settle_all answers st)
  = executions st ++ concat ((λ a, data a.2) <$> answers).
Proof.
  induction answers as [|a answers IH] using rev_ind; intros Hall.
  - simpl. by rewrite app_nil_r.
  - apply Forall_app in Hall as [Hall Ha]. apply Forall_inv in Ha.
    simpl in Ha.
    rewrite settle_all_snoc, ExecutionsProps.settle_ok_executions, Ha.
    rewrite (IH Hall).
    rewrite fmap_app, concat_app. simpl. by rewrite app_nil_r, app_assoc.
Qed.

(** Scenario A continued: on the loaded list [a; b], two load-more
    answers [c] and [b] give [a; b; c; b]. *)
Lemma loadMore_pages_concatenate_on_loaded :
  let ask := {| params := {| q_limit := 20; q_cursor := Some "c1";
                             q_status := None; q_workflowId := None |};
                replace := false |} in
  let answers := [(ask, Fixtures.E.page2); (ask, Fixtures.E.page_errors)] in
  Forall (λ a, replace a.1 = false) answers
  ∧ executions (settle_all answers (hook Fixtures.E.loaded))
    = [Fixtures.E.exec_a; Fixtures.E.exec_b; Fixtures.E.exec_c; Fixtures.E.exec_b].
Proof.
  intros ask answers.
  assert (Forall (λ a, replace a.1 = false) answers) as Hall.
  { repeat constructor. }
  split; [exact Hall|].
  exact (loadMore_pages_concatenate answers (hook Fixtures.E.loaded) Hall).
Defined.

(** After a replacing answer and any number of load-more answers the
    list is the first page followed by the later pages, whatever it held
    before. *)
Theorem refresh_then_pages a0 answers st :
  replace a0.1 = true →
  Forall (λ a, replace a.1 = false) answers →
  executions (settle_all (a0 :: answers) st)
  = data a0.2 ++ concat ((λ a, data a.2) <$> answers).
Proof.
  intros H0 Hall.
  change (settle_all (a0 :: answers) st)
    with (settle_all answers (exec (fetchExecutions_settle a0.1 (inr a0.2)) st)).
  rewrite loadMore_pages_concatenate by done.
  by rewrite ExecutionsProps.settle_ok_executions, H0.
Qed.

Lemma refresh_then_pages_scenario_A :
  let first := ({| params := {| q_limit := 20; q_cursor := None;
                                q_status := None; q_workflowId := None |};
                   replace := true |}, Fixtures.E.page1) in
  let more := ({| params := {| q_limit := 20; q_cursor := Some "c1";
                               q_status := None; q_workflowId := None |};
                  replace := false |}, Fixtures.E.page2) in
  replace first.1 = true
  ∧ Forall (λ a, replace a.1 = false) [more]
  ∧ executions (settle_all [first; more] initial)
    = [Fixtures.E.exec_a; Fixtures.E.exec_b; Fixtures.E.exec_c].
Proof.
  intros first more.
  assert (Forall (λ a, replace a.1 = false) [more]) as Hall by repeat constructor.
  split; [reflexivity|]. split; [exact Hall|].
  exact (refresh_then_pages first [more] initial eq_refl Hall).
Defined.

(** *** No spinner without a request *)

Lemma issue_keeps_idle (m : Hook State (option Pending)) w :
  (∀ s, eval m s = None →
        exec m s = s ∨ (loading (exec m s) = false ∧ refreshing (exec m s) = false)) →
  idle_when_quiet w →
  idle_when_quiet (issue m w).
Proof.
  intros Hm Hw. unfold issue, idle_when_quiet.
  specialize (Hm (hook w)). unfold eval, exec in Hm.
  destruct (m (hook w)) as [[p|] s]; simpl in *.
  - intros Hnil. by apply app_nil in Hnil as [_ ?].
  - rewrite app_nil_r. intros Hnil.
    destruct (Hm eq_refl) as [->|?]; [by apply Hw|done].
Qed.

Lemma call_none_flags opts q rep s :
  eval (fetchExecutions_call opts q rep) s = None →
  loading (exec (fetchExecutions_call opts q rep) s) = false
  ∧ refreshing (exec (fetchExecutions_call opts q rep) s) = false.
Proof.
  destruct (getClient opts) as [err|[]] eqn:Hc.
  - intros _.
    by destruct (ExecutionsProps.executions_call_without_client opts q rep s err Hc)
      as (_ & _ & ? & ?).
  - by rewrite (ExecutionsProps.call_issues opts q rep s Hc).
Qed.

Lemma refresh_none_flags opts view s :
  eval (refresh opts view) s = None →
  loading (exec (refresh opts view) s) = false
  ∧ refreshing (exec (refresh opts view) s) = false.
Proof.
  unfold refresh. rewrite !eval_bind, !exec_bind. apply call_none_flags.
Qed.

Lemma step_keeps_idle opts w e :
  idle_when_quiet w → idle_when_quiet (step opts w e).
Proof.
  intros Hw. destruct e as [| |f|wf|i r]; simpl.
  - apply issue_keeps_idle; [|done].
    intros s Hs. right. by apply refresh_none_flags.
  - apply issue_keeps_idle; [|done].
    intros s. unfold loadMore.
    destruct (loading (hook w) || negb (hasMore (hook w))); [by left|].
    intros Hs. right. by apply call_none_flags.
  - unfold rerender. case_decide.
    + exact Hw.
    + apply issue_keeps_idle; [|exact Hw].
      intros s Hs. right. by apply call_none_flags.
  - unfold rerender. case_decide.
    + exact Hw.
    + apply issue_keeps_idle; [|exact Hw].
      intros s Hs. right. by apply call_none_flags.
  - destruct (inflight w !! i) as [p|]; [|done].
    intros _. apply ExecutionsProps.executions_settle_flags.
Qed.

(** The first render has [loading] up and nothing in flight; the mount
    effect either sends the first request or, without a client, lowers
    the flags. *)
Lemma mount_idle opts : idle_when_quiet (mount opts).
Proof.
  unfold mount, issue, idle_when_quiet. cbn [hook inflight].
  pose proof (call_none_flags opts
                {| q_limit := initialLimit opts; q_cursor := None;
                   q_status := statusFilter initial;
                   q_workflowId := workflowFilter initial |} true initial) as H.
  unfold filterEffect, eval, exec in *.
  destruct (fetchExecutions_call opts _ true initial) as [[p|] s]; simpl in *.
  - discriminate.
  - intros _. by apply H.
Qed.

(** In every state the hook reaches from its mount, by calls of the
    screen and by answers and rejections in any order, [loading] and
    [refreshing] are both down whenever no request is in flight. *)
Theorem no_spinner_without_request opts es :
  inflight (run opts es) = [] →
  loading (hook (run opts es)) = false ∧ refreshing (hook (run opts es)) = false.
Proof.
  change (idle_when_quiet (run opts es)).
  induction es as [|e es IH] using rev_ind.
  - apply mount_idle.
  - unfold run. rewrite foldl_app. simpl. by apply step_keeps_idle.
Qed.

Lemma no_spinner_after_failed_refresh :
  let es := [Settles 0 (inr Fixtures.E.page1); CallRefresh;
             Settles 0 (inl (AxiosError None "Network Error"))] in
  inflight (run Fixtures.E.opts es) = []
  ∧ loading (hook (run Fixtures.E.opts es)) = false
  ∧ refreshing (hook (run Fixtures.E.opts es)) = false.
Proof.
  intros es.
  assert (inflight (run Fixtures.E.opts es) = []) as Hq by reflexivity.
  split; [exact Hq|].
  exact (no_spinner_without_request Fixtures.E.opts es Hq).
Defined.

End ExecutionsMore.

(** ** Edge behaviour of the list and detail hooks *)

Module HooksEdge.
Import Js.

(** *** [useExecutions] *)


(** A new filter value, with a client at hand, does send the reload,
    for the new value and without a cursor. *)
Theorem new_filter_reloads opts (w : UseExecutions.World) f :
  UseExecutions.getClient opts = inr tt →
  f ≠ UseExecutions.statusFilter (UseExecutions.hook w) →
  let w1 := UseExecutions.step opts w (UseExecutions.CallSetStatusFilter f) in
  UseExecutions.inflight w1
  = UseExecutions.inflight w ++
    [ {| UseExecutions.params :=
           {| UseExecutions.q_limit := UseExecutions.initialLimit opts;
              UseExecutions.q_cursor := None;
              UseExecutions.q_status := f;
              UseExecutions.q_workflowId :=
                UseExecutions.workflowFilter (UseExecutions.hook w) |};
         UseExecutions.replace := true |} ]
  ∧ UseExecutions.loading (UseExecutions.hook w1) = true
  ∧ UseExecutions.executions (UseExecutions.hook w1) = [].
Proof.
  intros Hc Hf. cbn zeta. unfold UseExecutions.step, UseExecutions.rerender.
  cbn [UseExecutions.hook UseExecutions.inflight].
  rewrite decide_False by (by intros [? _]).
  unfold UseExecutions.filterEffect.
  rewrite ExecutionsProps.issue_with_client by done.
  cbn [UseExecutions.hook UseExecutions.inflight].
  split; [done|].
  unfold UseExecutions.fetchExecutions_call. rewrite !exec_bind, Hc. done.
Qed.

Lemma new_filter_reloads_on_loaded :
  UseExecutions.getClient Fixtures.E.opts = inr tt
  ∧ Some UseExecutions.error_
    ≠ UseExecutions.statusFilter (UseExecutions.hook Fixtures.E.loaded)
  ∧ (UseExecutions.q_status ∘ UseExecutions.params)
      <$> UseExecutions.inflight
            (UseExecutions.step Fixtures.E.opts Fixtures.E.loaded
               (UseExecutions.CallSetStatusFilter (Some UseExecutions.error_)))
    = [Some UseExecutions.error_].
Proof.
  assert (UseExecutions.getClient Fixtures.E.opts = inr tt) as Hc by reflexivity.
  assert (Some UseExecutions.error_
          ≠ UseExecutions.statusFilter (UseExecutions.hook Fixtures.E.loaded)) as Hf
    by discriminate.
  split; [exact Hc|]. split; [exact Hf|].
  rewrite (proj1 (new_filter_reloads Fixtures.E.opts Fixtures.E.loaded
                    (Some UseExecutions.error_) Hc Hf)).
  reflexivity.
Defined.

(** [totalRecords] follows the last answer alone.  When an answer
    carries no count, it becomes the size of that page; after a
    load-more on a list that was not empty it is then less than the
    number of executions listed. *)
Theorem totalRecords_counts_last_page p resp st :
  UseExecutions.numberOfTotalRecords resp = None →
  UseExecutions.replace p = false →
  let s' := exec (UseExecutions.fetchExecutions_settle p (inr resp)) st in
  UseExecutions.totalRecords s' = length (UseExecutions.data resp)
  ∧ length (UseExecutions.executions s')
    = length (UseExecutions.executions st) + UseExecutions.totalRecords s'.
Proof.
  intros Hn Hp. cbn zeta.
  rewrite ExecutionsProps.settle_ok_executions, Hp, length_app.
  unfold UseExecutions.fetchExecutions_settle. rewrite Hp, Hn. done.
Qed.

Lemma totalRecords_counts_last_page_on_loaded :
  let p := {| UseExecutions.params :=
                {| UseExecutions.q_limit := 20; UseExecutions.q_cursor := Some "c1";
                   UseExecutions.q_status := None; UseExecutions.q_workflowId := None |};
              UseExecutions.replace := false |} in
  UseExecutions.numberOfTotalRecords Fixtures.E.page2 = None
  ∧ UseExecutions.replace p = false
  ∧ UseExecutions.totalRecords
      (exec (UseExecutions.fetchExecutions_settle p (inr Fixtures.E.page2))
         (UseExecutions.hook Fixtures.E.loaded)) = 1.
Proof.
  intros p. split; [reflexivity|]. split; [reflexivity|].
  exact (proj1 (totalRecords_counts_last_page p Fixtures.E.page2
                  (UseExecutions.hook Fixtures.E.loaded) eq_refl eq_refl)).
Defined.

(** When an answer leaves [hasMore] up, the cursor stored is the cursor
    of that answer, and it is not empty: the next load-more asks for
    the page after the one just received.  In both list hooks. *)
Theorem hasMore_means_cursor_of_last_page :
  (∀ p resp st,
     let s' := exec (UseExecutions.fetchExecutions_settle p (inr resp)) st in
     UseExecutions.hasMore s' = true →
     UseExecutions.cursor s' = UseExecutions.nextCursor resp
     ∧ truthy (UseExecutions.cursor s') = true)
  ∧ (∀ p resp st,
       let s' := exec (UseWorkflows.fetchWorkflows_settle p (inr resp)) st in
       UseWorkflows.hasMore s' = true →
       UseWorkflows.cursor s' = N8nApi.nextCursor resp
       ∧ truthy (UseWorkflows.cursor s') = true).
Proof.
  split; intros p resp st; cbn zeta.
  - unfold UseExecutions.fetchExecutions_settle.
    destruct (UseExecutions.replace p); cbn;
      intros [? _]%andb_true_iff; done.
  - unfold UseWorkflows.fetchWorkflows_settle.
    destruct (UseWorkflows.isRefresh p),
      (truthy (N8nApi.nextCursor resp)) eqn:Ht; cbn; done.
Qed.

Lemma hasMore_means_cursor_on_first_page :
  let p := {| UseExecutions.params :=
                {| UseExecutions.q_limit := 20; UseExecutions.q_cursor := None;
                   UseExecutions.q_status := None; UseExecutions.q_workflowId := None |};
              UseExecutions.replace := true |} in
  let s' := exec (UseExecutions.fetchExecutions_settle p (inr Fixtures.E.page1))
              UseExecutions.initial in
  UseExecutions.hasMore s' = true ∧ UseExecutions.cursor s' = Some "c1".
Proof.
  intros p s'.
  assert (UseExecutions.hasMore s' = true) as Hm by reflexivity.
  split; [exact Hm|].
  exact (proj1 (proj1 hasMore_means_cursor_of_last_page p Fixtures.E.page1
                  UseExecutions.initial Hm)).
Defined.

(** In [useWorkflows] a page without a cursor lowers [hasMore] and
    leaves the cursor cell as it was: after a load-more that reached
    the end the old cursor is still stored, and [loadMore] is closed. *)
Theorem workflows_last_page_keeps_old_cursor opts p resp st :
  truthy (N8nApi.nextCursor resp) = false →
  let s' := exec (UseWorkflows.fetchWorkflows_settle p (inr resp)) st in
  UseWorkflows.cursor s' = UseWorkflows.cursor st
  ∧ UseWorkflows.hasMore s' = false
  ∧ ∀ s, UseWorkflows.loadMore opts s' s = (None, s).
Proof.
  intros Ht. cbn zeta.
  assert (UseWorkflows.cursor (exec (UseWorkflows.fetchWorkflows_settle p (inr resp)) st)
          = UseWorkflows.cursor st
          ∧ UseWorkflows.hasMore (exec (UseWorkflows.fetchWorkflows_settle p (inr resp)) st)
            = false) as [Hc Hm].
  { unfold UseWorkflows.fetchWorkflows_settle. rewrite Ht.
    by destruct (UseWorkflows.isRefresh p). }
  split; [done|]. split; [done|].
  intros s. apply WorkflowsProps.workflows_loadMore_guard_closed. auto.
Qed.

Lemma workflows_last_page_keeps_old_cursor_example :
  let st := {| UseWorkflows.workflows := [Fixtures.W.wf1]; UseWorkflows.loading := true;
               UseWorkflows.refreshing := false; UseWorkflows.error := None;
               UseWorkflows.hasMore := true; UseWorkflows.cursor := Some "c1";
               UseWorkflows.searchQuery := "" |} in
  let p := {| UseWorkflows.isRefresh := false;
              UseWorkflows.params := {| N8nApi.p_limit := 20; N8nApi.p_cursor := Some "c1";
                                        N8nApi.p_filter := None |} |} in
  truthy (N8nApi.nextCursor Fixtures.W.page) = false
  ∧ UseWorkflows.cursor (exec (UseWorkflows.fetchWorkflows_settle p (inr Fixtures.W.page)) st)
    = Some "c1".
Proof.
  intros st p. split; [reflexivity|].
  exact (proj1 (workflows_last_page_keeps_old_cursor Fixtures.W.opts p Fixtures.W.page st
                  eq_refl)).
Defined.

(** A failed fetch of the workflows list leaves the list, the cursor
    and [hasMore] as they were, stores a message in [error], and lowers
    both flags. *)
Theorem workflows_failure_keeps_snapshot p err st :
  let s' := exec (UseWorkflows.fetchWorkflows_settle p (inl err)) st in
  UseWorkflows.workflows s' = UseWorkflows.workflows st
  ∧ UseWorkflows.cursor s' = UseWorkflows.cursor st
  ∧ UseWorkflows.hasMore s' = UseWorkflows.hasMore st
  ∧ UseWorkflows.error s' = Some (errorMessage "Failed to fetch workflows" err)
  ∧ UseWorkflows.loading s' = false
  ∧ UseWorkflows.refreshing s' = false.
Proof. done. Qed.

(** The guard of the workflows screen adds nothing to the guard of the
    hook: [handleEndReached] does exactly what [loadMore] does, in
    every render. *)
Theorem handleEndReached_is_loadMore opts view st :
  Screens.handleEndReached opts view st = UseWorkflows.loadMore opts view st.
Proof.
  unfold Screens.handleEndReached, UseWorkflows.loadMore.
  destruct (UseWorkflows.hasMore view), (UseWorkflows.loading view),
    (UseWorkflows.refreshing view); reflexivity.
Qed.

(** *** [useExecution] *)

(** A retry that does not succeed never changes what is displayed:
    with nothing displayed, without a client, or when the server
    rejects, [execution], [error] and the two fetch flags are as before
    and the promise resolves to [null].  A rejection stores its message
    in [retryError], not in [error], and lowers [retrying]. *)
Theorem failed_retry_keeps_execution opts view st err :
  let s1 := exec (UseExecution.retry_call opts view) st in
  let s2 := exec (UseExecution.retry_settle (inl err)) s1 in
  match eval (UseExecution.retry_call opts view) st with
  | inl v =>
      v = None
      ∧ UseExecution.execution s1 = UseExecution.execution st
      ∧ UseExecution.error s1 = UseExecution.error st
      ∧ UseExecution.loading s1 = UseExecution.loading st
      ∧ UseExecution.refreshing s1 = UseExecution.refreshing st
  | inr _ =>
      UseExecution.execution s2 = UseExecution.execution st
      ∧ UseExecution.error s2 = UseExecution.error st
      ∧ UseExecution.loading s2 = UseExecution.loading st
      ∧ UseExecution.refreshing s2 = UseExecution.refreshing st
      ∧ UseExecution.retrying s2 = false
      ∧ UseExecution.retryError s2 = Some (axiosMessage "Failed to retry execution" err)
      ∧ eval (UseExecution.retry_settle (inl err)) s1 = None
  end.
Proof.
  cbn zeta. unfold UseExecution.retry_call.
  destruct (UseExecution.execution view) as [e|]; [|done].
  rewrite !eval_bind, !exec_bind.
  by destruct (UseExecution.getClient opts) as [e'|[]].
Qed.

(** With a client at hand a refresh of the detail hook raises
    [refreshing] and leaves [loading] and the displayed execution as
    they are; when it fails, the execution is still displayed, the
    message is in [error], and both flags are down. *)
Theorem detail_refresh_keeps_execution opts st err :
  UseExecution.getClient opts = inr tt →
  let s1 := exec (UseExecution.refresh opts) st in
  let s2 := exec (UseExecution.fetchExecution_settle (inl err)) s1 in
  eval (UseExecution.refresh opts) st = true
  ∧ UseExecution.refreshing s1 = true
  ∧ UseExecution.loading s1 = UseExecution.loading st
  ∧ UseExecution.execution s1 = UseExecution.execution st
  ∧ UseExecution.execution s2 = UseExecution.execution st
  ∧ UseExecution.error s2 = Some (axiosMessage "Failed to fetch execution" err)
  ∧ UseExecution.loading s2 = false
  ∧ UseExecution.refreshing s2 = false.
Proof.
  intros Hc. cbn zeta. unfold UseExecution.refresh, UseExecution.fetchExecution_call.
  rewrite !eval_bind, !exec_bind, Hc. done.
Qed.

Lemma detail_refresh_keeps_execution_on_e1 :
  UseExecution.getClient Fixtures.D.opts = inr tt
  ∧ UseExecution.execution
      (exec (UseExecution.fetchExecution_settle (inl (AxiosError None "timeout of 30000ms exceeded")))
         (exec (UseExecution.refresh Fixtures.D.opts) Fixtures.D.showing_e1))
    = Some Fixtures.D.exec_e1.
Proof.
  assert (UseExecution.getClient Fixtures.D.opts = inr tt) as Hc by reflexivity.
  split; [exact Hc|].
  exact (proj1 (proj2 (proj2 (proj2 (proj2
    (detail_refresh_keeps_execution Fixtures.D.opts Fixtures.D.showing_e1
       (AxiosError None "timeout of 30000ms exceeded") Hc)))))).
Defined.

(** After a retry the detail screen re-targets itself exactly when the
    retry succeeded: the route gets the id of the returned execution,
    and nothing is set when the retry resolved to [null]. *)
Theorem handleRetry_retargets_on_success st r :
  Screens.handleRetry_setParams (eval (UseExecution.retry_settle r) st)
  = match r with
    | inr e => Some (UseExecutions.id e, e)
    | inl _ => None
    end.
Proof. by destruct r. Qed.

End HooksEdge.

(** ** The workflow detail controller *)

Module WorkflowDetailProps.
Import Js UseWorkflow.

Lemma withActive_same w : UseWorkflows.withActive (N8nApi.active w) w = w.
Proof. by destruct w. Qed.

Lemma withActive_twice a b w :
  UseWorkflows.withActive a (UseWorkflows.withActive b w) = UseWorkflows.withActive a w.
Proof. done. Qed.

Lemma accepted_toggle_workflow st w u :
  workflow st = Some w →
  workflow (exec (toggleActive_settle (eval (toggleActive_call st) st) (inr u))
              (exec (toggleActive_call st) st))
  = Some (UseWorkflows.withActive (negb (N8nApi.active w)) w).
Proof.
  intros Hw. unfold toggleActive_call, toggleActive_action.
  rewrite !eval_bind, !exec_bind, Hw. cbn.
  rewrite Hw. by destruct (N8nApi.active w).
Qed.

(** [toggleActive] on a displayed workflow, when the server accepts:
    the workflow displayed afterwards is the one displayed before with
    [active] negated, whatever workflow the server returned; the error
    is cleared and the promise resolves. *)
Theorem toggleActive_flips st w u :
  workflow st = Some w →
  let a := eval (toggleActive_call st) st in
  let s1 := exec (toggleActive_call st) st in
  let s2 := exec (toggleActive_settle a (inr u)) s1 in
  written a = negb (N8nApi.active w)
  ∧ workflow s1 = Some w
  ∧ workflow s2 = Some (UseWorkflows.withActive (negb (N8nApi.active w)) w)
  ∧ error s2 = None
  ∧ eval (toggleActive_settle a (inr u)) s1 = inr tt.
Proof.
  intros Hw. cbn zeta. unfold toggleActive_call, toggleActive_action.
  rewrite !eval_bind, !exec_bind, Hw. cbn.
  rewrite Hw. by destruct (N8nApi.active w).
Qed.

Lemma toggleActive_flips_on_w1 :
  let st := exec (fetchWorkflow_settle (inr Fixtures.W.wf1)) initial in
  workflow st = Some Fixtures.W.wf1
  ∧ N8nApi.active
      <$> workflow (exec (toggleActive_settle (eval (toggleActive_call st) st)
                            (inr Fixtures.W.wf1))
                      (exec (toggleActive_call st) st))
    = Some false.
Proof.
  intros st.
  assert (workflow st = Some Fixtures.W.wf1) as Hw by reflexivity.
  split; [exact Hw|].
  rewrite (proj1 (proj2 (proj2 (toggleActive_flips st Fixtures.W.wf1 Fixtures.W.wf1 Hw)))).
  reflexivity.
Defined.

(** Two accepted toggles, each from the render after the previous one,
    bring back the workflow that was displayed, field for field. *)
Theorem toggleActive_twice_restores st w u u' :
  workflow st = Some w →
  let s2 := exec (toggleActive_settle (eval (toggleActive_call st) st) (inr u))
              (exec (toggleActive_call st) st) in
  let s4 := exec (toggleActive_settle (eval (toggleActive_call s2) s2) (inr u'))
              (exec (toggleActive_call s2) s2) in
  workflow s4 = Some w.
Proof.
  intros Hw s2 s4.
  pose proof (accepted_toggle_workflow st w u Hw) as H2.
  fold s2 in H2.
  pose proof (accepted_toggle_workflow s2 _ u' H2) as H4.
  fold s4 in H4. rewrite H4. f_equal.
  cbn [N8nApi.active UseWorkflows.withActive].
  rewrite negb_involutive. by destruct w.
Qed.

Lemma toggleActive_twice_restores_w1 :
  let st := exec (fetchWorkflow_settle (inr Fixtures.W.wf1)) initial in
  let s2 := exec (toggleActive_settle (eval (toggleActive_call st) st) (inr Fixtures.W.wf2))
              (exec (toggleActive_call st) st) in
  workflow st = Some Fixtures.W.wf1
  ∧ workflow (exec (toggleActive_settle (eval (toggleActive_call s2) s2) (inr Fixtures.W.wf2))
                (exec (toggleActive_call s2) s2))
    = Some Fixtures.W.wf1.
Proof.
  intros st s2.
  assert (workflow st = Some Fixtures.W.wf1) as Hw by reflexivity.
  split; [exact Hw|].
  exact (toggleActive_twice_restores st Fixtures.W.wf1 Fixtures.W.wf2 Fixtures.W.wf2 Hw).
Defined.

(** [toggleActive] before the workflow has loaded asks for an
    activation, and when the server accepts nothing is displayed
    still. *)
Theorem toggleActive_before_load view st u :
  workflow view = None →
  workflow st = None →
  eval (toggleActive_call view) st = Activate
  ∧ workflow (exec (toggleActive_settle Activate (inr u)) (exec (toggleActive_call view) st))
    = None.
Proof.
  intros Hv Hs. unfold toggleActive_call, toggleActive_action.
  rewrite !eval_bind, !exec_bind, Hv. cbn. by rewrite Hs.
Qed.

Lemma toggleActive_before_load_initial :
  workflow initial = None
  ∧ eval (toggleActive_call initial) initial = Activate
  ∧ workflow (exec (toggleActive_settle Activate (inr Fixtures.W.wf1))
                (exec (toggleActive_call initial) initial)) = None.
Proof.
  split; [reflexivity|].
  exact (toggleActive_before_load initial initial Fixtures.W.wf1 eq_refl eq_refl).
Defined.


(** The two halves of the hook do not touch each other: fetching the
    executions page leaves the workflow, its flags and its error alone,
    and fetching or mutating the workflow leaves the executions, their
    cursor, flag and error alone. *)
Theorem workflow_and_executions_independent opts view st b p r rw a rm :
  (let s1 := exec (fetchExecutions_settle p r) (exec (fetchExecutions_call opts view b) st) in
   workflow s1 = workflow st ∧ loading s1 = loading st
   ∧ refreshing s1 = refreshing st ∧ error s1 = error st)
  ∧ (let s2 := exec (mutate_settle a rm)
                 (exec (fetchWorkflow_settle rw) (exec (fetchWorkflow_call b) st)) in
     executions s2 = executions st
     ∧ executionsCursor s2 = executionsCursor st
     ∧ hasMoreExecutions s2 = hasMoreExecutions st
     ∧ refreshingExecutions s2 = refreshingExecutions st
     ∧ executionsError s2 = executionsError st).
Proof.
  split; cbn zeta.
  - unfold fetchExecutions_settle, fetchExecutions_call.
    destruct r as [err|page]; [by destruct b|].
    by destruct b, (isRefresh p), (truthy (nextCursor page)).
  - unfold fetchWorkflow_settle, fetchWorkflow_call, mutate_settle.
    by destruct rw, rm, b.
Qed.




(** [execute] hands the caller the execution id the server returned,
    or [null] when that id is the empty string. *)
Theorem execute_returns_id_or_null st executionId :
  exec (execute_settle (inr executionId)) st = st
  ∧ eval (execute_settle (inr executionId)) st
    = inr (if decide (executionId = "") then None else Some executionId).
Proof.
  split; [done|]. cbn. f_equal.
  destruct (decide (executionId = "")) as [->|Hne]; [done|].
  apply String.eqb_neq in Hne. by rewrite Hne.
Qed.

End WorkflowDetailProps.

(** ** The theme preference *)

Module ThemeProps.
Import Js AsyncStorage ThemeContext.

(** The stored string of a mode reads back as that mode, and no other
    string reads as a mode. *)
Lemma asThemeMode_modeString s m : asThemeMode s = Some m ↔ s = modeString m.
Proof.
  unfold asThemeMode. split.
  - repeat case_match; intros [= <-];
      match goal with H : String.eqb _ _ = true |- _ => by apply String.eqb_eq in H end.
  - intros ->. by destruct m.
Qed.


(** Loading always ends with [isLoaded] up.  The mode displayed
    changes only when the store holds one of the three mode strings
    under the theme key: with no entry, another string, or a read that
    fails, it stays as it is; and loading never writes to the store. *)
Theorem loadThemePreference_total readFails w :
  let w' := exec (loadThemePreference readFails) w in
  isLoaded (cells w') = true
  ∧ store w' = store w
  ∧ themeMode (cells w')
    = match readFails, getItem THEME_KEY (store w) ≫= asThemeMode with
      | None, Some m => m
      | _, _ => themeMode (cells w)
      end.
Proof.
  cbn zeta. unfold loadThemePreference, exec, hook_bind. cbn beta.
  destruct readFails as [err|]; [done|].
  destruct (getItem THEME_KEY (store w)) as [stored|] eqn:Hs; cbn [mbind option_bind]; [|done].
  destruct (asThemeMode stored) as [m|] eqn:Hm.
  - assert (truthy (Some stored) = true) as ->; [|done].
    apply asThemeMode_modeString in Hm as ->. by destruct m.
  - by destruct (truthy (Some stored)).
Qed.

(** What [setThemeMode] saved is what the next start of the
    application loads: after a write that went through, a provider
    mounted on the resulting store and loading from it displays the
    mode that was set. *)
Theorem theme_preference_round_trip w mode :
  let w1 := exec (setThemeMode None mode) w in
  let w2 := exec (loadThemePreference None) (mount (store w1)) in
  eval (setThemeMode None mode) w = inr tt
  ∧ themeMode (cells w1) = mode
  ∧ themeMode (cells w2) = mode
  ∧ isLoaded (cells w2) = true.
Proof.
  cbn zeta. split; [done|]. split; [done|].
  assert (store (exec (setThemeMode None mode) w)
          = setItem THEME_KEY (modeString mode) (store w)) as -> by done.
  unfold mount, loadThemePreference, exec, hook_bind. cbn beta. cbn [store].
  unfold getItem, setItem. rewrite lookup_insert_eq.
  by destruct mode.
Qed.

(** When the write fails, [setThemeMode] and [toggleTheme] reject with
    the error of the store and change nothing: the mode displayed and
    the stored preference stay in step. *)
Theorem failed_theme_write_changes_nothing err mode view w :
  setThemeMode (Some err) mode w = (inl err, w)
  ∧ toggleTheme (Some err) view w = (inl err, w).
Proof. done. Qed.

(** The appearance follows the system only in system mode: an explicit
    mode decides [isDark] whatever the system scheme, and in system
    mode an unknown scheme counts as light. *)
Theorem isDark_follows_system_only_in_system_mode m scheme scheme' :
  (m ≠ system → isDark m scheme = isDark m scheme')
  ∧ isDark system None = false
  ∧ isDark system (Some schemeDark) = true
  ∧ isDark system (Some schemeLight) = false
  ∧ isDark (nextMode light) scheme = true.
Proof. by destruct m. Qed.

End ThemeProps.

(** ** The credentials of [n8nApi] *)

Module ApiObjectProps.
Import Js AsyncStorage N8nApiObject.

Lemma keys_differ : API_URL_KEY ≠ API_KEY_KEY.
Proof. done. Qed.

Lemma store_after_setCredentials w b k :
  store (exec (setCredentials None b k) w)
  = <[API_KEY_KEY := k]> (<[API_URL_KEY := b]> (store w)).
Proof. done. Qed.

(** [setCredentials] configures the object with the two strings as
    they are given.  They survive a restart of the application exactly
    when both are non-empty: a fresh object running [initialize] on
    the store gets the same client then, and stays without a client
    when one of them is the empty string. *)
Theorem credentials_survive_restart w b k :
  let w1 := exec (setCredentials None b k) w in
  eval (setCredentials None b k) w = inr tt
  ∧ client (api w1) = Some {| baseURL := b; key := k |}
  ∧ getItem API_URL_KEY (store w1) = Some b
  ∧ getItem API_KEY_KEY (store w1) = Some k
  ∧ client (restarted (store w1))
    = if decide (b = "" ∨ k = "") then None else Some {| baseURL := b; key := k |}.
Proof.
  cbn zeta. split; [done|]. split; [done|].
  rewrite store_after_setCredentials. unfold getItem.
  assert ((<[API_KEY_KEY:=k]> (<[API_URL_KEY:=b]> (store w)) : Storage) !! API_URL_KEY = Some b)
    as Hb by (by rewrite lookup_insert_ne, lookup_insert_eq).
  assert ((<[API_KEY_KEY:=k]> (<[API_URL_KEY:=b]> (store w)) : Storage) !! API_KEY_KEY = Some k)
    as Hk by apply lookup_insert_eq.
  split; [exact Hb|]. split; [exact Hk|].
  unfold restarted, initialize, exec, hook_bind, getItem. cbn.
  rewrite Hb, Hk. cbn.
  destruct (decide (b = "" ∨ k = "")) as [[->| ->]|Hne].
  - done.
  - by rewrite andb_false_r.
  - assert (b ≠ "" ∧ k ≠ "") as [Hb' Hk'] by tauto.
    apply String.eqb_neq in Hb', Hk'. by rewrite Hb', Hk'.
Qed.

(** [clearCredentials] leaves the object without a client even when
    the store refuses the removal; when the removal goes through, the
    two credential keys are gone from the store, every other key is as
    it was, a restart finds no client, and the requests of the object
    reject with "API not configured". *)
Theorem clearCredentials_unconfigures f w :
  isConfigured (api (exec (clearCredentials f) w)) = false
  ∧ (let w1 := exec (clearCredentials None) w in
     getItem API_URL_KEY (store w1) = None
     ∧ getItem API_KEY_KEY (store w1) = None
     ∧ (∀ other, other ≠ API_URL_KEY → other ≠ API_KEY_KEY →
                 getItem other (store w1) = getItem other (store w))
     ∧ isConfigured (restarted (store w1)) = false
     ∧ ∀ answer server i a,
         N8nApi.getWorkflows (isConfigured (api w1)) answer = inl N8nApi.notConfigured
         ∧ N8nApi.toggleWorkflowActive (isConfigured (api w1)) server i a
           = inl N8nApi.notConfigured).
Proof.
  split.
  { unfold clearCredentials. rewrite !exec_bind.
    by destruct (failsAt f 0). }
  cbn zeta.
  assert (store (exec (clearCredentials None) w)
          = delete API_URL_KEY (delete API_KEY_KEY (store w))) as -> by done.
  unfold getItem.
  assert ((delete API_URL_KEY (delete API_KEY_KEY (store w)) : Storage) !! API_URL_KEY = None)
    as Hb by apply lookup_delete_eq.
  assert ((delete API_URL_KEY (delete API_KEY_KEY (store w)) : Storage) !! API_KEY_KEY = None)
    as Hk by (by rewrite lookup_delete_ne, lookup_delete_eq).
  split; [exact Hb|]. split; [exact Hk|].
  split.
  { intros other H1 H2. by rewrite !lookup_delete_ne. }
  split.
  { unfold restarted, initialize, exec, hook_bind, getItem. cbn. by rewrite Hb. }
  intros answer server i a. split; [done|]. by destruct a.
Qed.

Lemma clearCredentials_keeps_theme :
  let w := {| store := {[ API_URL_KEY := "https://n8n.example.com";
                          API_KEY_KEY := "secret";
                          ThemeContext.THEME_KEY := "dark" ]};
              api := fresh |} in
  ThemeContext.THEME_KEY ≠ API_URL_KEY
  ∧ ThemeContext.THEME_KEY ≠ API_KEY_KEY
  ∧ getItem ThemeContext.THEME_KEY (store (exec (clearCredentials None) w)) = Some "dark".
Proof.
  intros w.
  assert (ThemeContext.THEME_KEY ≠ API_URL_KEY) as H1 by done.
  assert (ThemeContext.THEME_KEY ≠ API_KEY_KEY) as H2 by done.
  split; [exact H1|]. split; [exact H2|].
  rewrite (proj1 (proj2 (proj2 (proj2 (clearCredentials_unconfigures None w))))
             ThemeContext.THEME_KEY H1 H2).
  reflexivity.
Defined.

Lemma initialize_client f w :
  client (api (exec (initialize f) w))
  = match failsAt f 0, failsAt f 1,
          getItem API_URL_KEY (store w), getItem API_KEY_KEY (store w) with
    | None, None, Some b, Some k =>
        if truthy (Some b) && truthy (Some k)
        then Some {| baseURL := b; key := k |}
        else client (api w)
    | _, _, _, _ => client (api w)
    end.
Proof.
  unfold initialize, exec, hook_bind.
  destruct (failsAt f 0); [done|]. destruct (failsAt f 1); [done|].
  cbn -[getItem API_URL_KEY API_KEY_KEY truthy].
  destruct (getItem API_URL_KEY (store w)) as [b|], (getItem API_KEY_KEY (store w)) as [k|];
    try done.
  by destruct (truthy (Some b) && truthy (Some k)).
Qed.

(** [initialize] never takes a client away.  An object that has one
    still has one afterwards, and it is the very same client whenever
    the store does not hold two non-empty credentials, for instance
    after the store was cleared: the object goes on with the client it
    had. *)
Theorem initialize_keeps_client f w c :
  client (api w) = Some c →
  isConfigured (api (exec (initialize f) w)) = true
  ∧ (getItem API_URL_KEY (store w) = None ∨ getItem API_KEY_KEY (store w) = None
     ∨ getItem API_URL_KEY (store w) = Some "" ∨ getItem API_KEY_KEY (store w) = Some "" →
     client (api (exec (initialize f) w)) = Some c).
Proof.
  intros Hc. unfold isConfigured. rewrite initialize_client, Hc.
  destruct (failsAt f 0); [done|]. destruct (failsAt f 1); [done|].
  destruct (getItem API_URL_KEY (store w)) as [b|], (getItem API_KEY_KEY (store w)) as [k|];
    try (split; [done|]; by intros _).
  destruct (truthy (Some b)) eqn:Hb', (truthy (Some k)) eqn:Hk'; cbn [andb];
    try (split; [done|]; by intros _).
  split; [done|].
  intros [?|[?|[[= ->]|[= ->]]]]; done.
Qed.

Lemma initialize_keeps_client_after_wipe :
  let w := {| store := ∅;
              api := {| client := Some {| baseURL := "https://n8n.example.com"; key := "secret" |};
                        baseUrl := Some "https://n8n.example.com";
                        apiKey := Some "secret" |} |} in
  client (api w) = Some {| baseURL := "https://n8n.example.com"; key := "secret" |}
  ∧ client (api (exec (initialize None) w))
    = Some {| baseURL := "https://n8n.example.com"; key := "secret" |}.
Proof.
  intros w.
  assert (client (api w)
          = Some {| baseURL := "https://n8n.example.com"; key := "secret" |}) as Hc
    by reflexivity.
  split; [exact Hc|].
  apply (proj2 (initialize_keeps_client None w _ Hc)).
  left. reflexivity.
Defined.

End ApiObjectProps.

(** ** [N8nClient] and the connection context *)

Module ClientProps.
Import Js Http N8nClient ClientInv.

(** *** The trailing slash *)

Lemma strip_app_slash s : stripTrailingSlash (s +:+ "/") = s.
Proof.
  induction s as [|c s IH]; [done|].
  change (String c s +:+ "/") with (String c (s +:+ "/")).
  assert (∃ c' r, s +:+ "/" = String c' r) as (c' & r & Hs).
  { destruct s; cbn; eauto. }
  rewrite Hs.
  change (stripTrailingSlash (String c (String c' r)))
    with (String c (stripTrailingSlash (String c' r))).
  by rewrite <- Hs, IH.
Qed.

Lemma strip_without_slash s :
  (∀ t, s ≠ t +:+ "/") → stripTrailingSlash s = s.
Proof.
  induction s as [|c s IH]; [done|].
  intros Hno.
  destruct s as [|c' s'].
  - cbn. destruct (Ascii.eqb_spec c "/"%char) as [->|]; [|done].
    by destruct (Hno "").
  - change (stripTrailingSlash (String c (String c' s')))
      with (String c (stripTrailingSlash (String c' s'))).
    rewrite IH; [done|].
    intros t Ht. apply (Hno (String c t)). cbn. by rewrite Ht.
Qed.

Lemma append_two_slashes s : s +:+ "//" = (s +:+ "/") +:+ "/".
Proof.
  induction s as [|c s IH]; [done|].
  change (String c (s +:+ "//") = String c ((s +:+ "/") +:+ "/")).
  by f_equal.
Qed.

(** The base URL handed to axios is the configured one without one
    trailing slash: a URL ending in a slash loses exactly that slash,
    so of two trailing slashes one is kept, and a URL that does not end
    in a slash is taken as it is. *)
Theorem stripTrailingSlash_one_slash s :
  stripTrailingSlash (s +:+ "/") = s
  ∧ stripTrailingSlash (s +:+ "//") = s +:+ "/"
  ∧ ((∀ t, s ≠ t +:+ "/") → stripTrailingSlash s = s).
Proof.
  split; [apply strip_app_slash|]. split; [|apply strip_without_slash].
  rewrite append_two_slashes. apply strip_app_slash.
Qed.

Lemma stripTrailingSlash_localhost :
  (∀ t, "http://localhost:5678" ≠ t +:+ "/")
  ∧ stripTrailingSlash "http://localhost:5678" = "http://localhost:5678".
Proof.
  assert (∀ t, "http://localhost:5678" ≠ t +:+ "/") as Hno.
  { intros t Ht.
    assert (stripTrailingSlash "http://localhost:5678" = t) as <-
      by (rewrite Ht; apply strip_app_slash).
    cbn in Ht. discriminate Ht. }
  split; [exact Hno|].
  exact (proj2 (proj2 (stripTrailingSlash_one_slash "http://localhost:5678")) Hno).
Defined.

(** *** [updateConfig] *)

Lemma create_consistent cfg : consistent (create cfg).
Proof. done. Qed.

Lemma updateConfig_consistent p cl : consistent cl → consistent (updateConfig p cl).
Proof.
  intros [Hb Hk]. unfold updateConfig, consistent.
  destruct (newBaseUrl p) as [b|], (newApiKey p) as [k|]; cbn;
    repeat (case_match; cbn); done.
Qed.

(** Whatever updates a client receives after it is made, its axios
    defaults agree with its configuration: the base URL in use is the
    configured one without its trailing slash and the key header is the
    configured key. *)
Theorem updateConfig_keeps_defaults_in_step cfg updates :
  let cl := updated cfg updates in
  defaults_baseURL cl = stripTrailingSlash (baseUrl (getConfig cl))
  ∧ defaults_key cl = apiKey (getConfig cl).
Proof.
  change (consistent (updated cfg updates)).
  unfold updated.
  induction updates as [|p updates IH] using rev_ind.
  - apply create_consistent.
  - rewrite foldl_app. by apply updateConfig_consistent.
Qed.

(** An update ignores absent and empty fields: it changes the base
    URL only when given a non-empty one, the key only when given a
    non-empty one, and each of the two leaves the other alone. *)
Theorem updateConfig_ignores_empty p cl :
  baseUrl (getConfig (updateConfig p cl))
  = (if truthy (newBaseUrl p) then default "" (newBaseUrl p) else baseUrl (getConfig cl))
  ∧ apiKey (getConfig (updateConfig p cl))
    = (if truthy (newApiKey p) then default "" (newApiKey p) else apiKey (getConfig cl)).
Proof.
  unfold updateConfig.
  destruct (newBaseUrl p) as [b|], (newApiKey p) as [k|]; cbn;
    repeat (case_match; cbn); done.
Qed.

(** *** Errors *)

(** [handleError] leaves alone what is not an axios error, and makes
    of an axios error an [N8nApiError] whose status is the HTTP status,
    or 0 without a response, and whose message is the first non-empty
    one of the body's [message], the body's [error] and the message of
    the axios error. *)
Theorem handleError_message e :
  ∃ msg,
    handleError (Axios e) = ApiError msg (default 0 (statusOf e)) (bodyOf e)
    ∧ (msg = message e
       ∨ (msg ≠ "" ∧ (bodyOf e ≫= body_message = Some msg
                      ∨ (truthy (bodyOf e ≫= body_message) = false
                         ∧ bodyOf e ≫= body_error = Some msg)))).
Proof.
  eexists. split; [reflexivity|].
  unfold orString, orOption.
  destruct (bodyOf e ≫= body_message) as [m|], (bodyOf e ≫= body_error) as [m'|]; cbn.
  all: repeat match goal with
         | |- context [negb (?x =? "")] =>
             let H := fresh "Hne" in
             destruct (negb (x =? "")) eqn:H; cbn;
             [apply negb_true_iff, String.eqb_neq in H|]
         end.
  all: try (by left).
  all: right; split; [done|]; by (left + right).
Qed.

(** [testConnection] of the client answers [true] for a request that
    went through and [false] for a 401 and for nothing else: every
    other failure is thrown, as an [N8nApiError] when it came from
    axios. *)
Theorem client_testConnection_cases r :
  (testConnection r = inr true ↔ ∃ u, r = inr u)
  ∧ (testConnection r = inr false ↔ ∃ e, r = inl (Axios e) ∧ statusOf e = Some 401)
  ∧ (∀ err, testConnection r = inl err →
            ∃ error, r = inl error ∧ err = handleError error
                     ∧ ∀ e, err ≠ Axios e).
Proof.
  split; [|split].
  - split; [|by intros [u ->]].
    destruct r as [[e| |]|u]; cbn; try done; [|by eexists].
    by case_bool_decide.
  - split.
    + destruct r as [[e| |]|u]; cbn; try done.
      case_bool_decide; [|done]. intros _. by exists e.
    + intros (e & -> & He). cbn. by rewrite bool_decide_eq_true_2.
  - intros err. destruct r as [[e| |]|u]; cbn; try done.
    + case_bool_decide; [done|]. intros [= <-]. eexists. by repeat split.
    + intros [= <-]. eexists. by repeat split.
    + intros [= <-]. eexists. by repeat split.
Qed.

Lemma client_testConnection_timeout :
  let e := {| code := Some "ECONNABORTED"; response := None;
              message := "timeout of 30000ms exceeded" |} in
  testConnection (inl (Axios e))
  = inl (ApiError "timeout of 30000ms exceeded" 0 None)
  ∧ ∃ error, (inl (Axios e) : Outcome unit) = inl error
             ∧ ApiError "timeout of 30000ms exceeded" 0 None = handleError error.
Proof.
  intros e.
  assert (testConnection (inl (Axios e))
          = inl (ApiError "timeout of 30000ms exceeded" 0 None)) as H by reflexivity.
  split; [exact H|].
  destruct (proj2 (proj2 (client_testConnection_cases (inl (Axios e)))) _ H)
    as (error & H1 & H2 & _).
  by exists error.
Defined.

End ClientProps.

Module ContextProps.
Import Js Http AsyncStorage N8nContext.

(** [testConnection] of the provider never throws.  With a client in
    the render it answers [true] exactly when the request went through;
    [isConnected] is the answer; [connectionError] is empty after a
    success and holds a message after every failure: the fixed
    authentication text for a 401, the message [handleError] chose for
    any other axios error, and the fixed connection text otherwise. *)
Theorem provider_testConnection view c w r :
  client view = Some c →
  let w1 := exec (testConnection_call view) w in
  let w2 := exec (testConnection_settle (N8nClient.testConnection r)) w1 in
  let answer := eval (testConnection_settle (N8nClient.testConnection r)) w1 in
  eval (testConnection_call view) w = inr tt
  ∧ answer = (if r is inr _ then true else false)
  ∧ isConnected (cells w2) = Some answer
  ∧ connectionError (cells w2)
    = match r with
      | inr _ => None
      | inl (Axios e) =>
          if bool_decide (statusOf e = Some 401)
          then Some "Authentication failed. Please check your API key."
          else Some (orString (orOption (bodyOf e ≫= body_message) (bodyOf e ≫= body_error))
                        (message e))
      | inl (ApiError msg _ _) => Some msg
      | inl Unknown => Some "Failed to connect to n8n instance"
      end
  ∧ store w2 = store w
  ∧ client (cells w2) = client (cells w).
Proof.
  intros Hc. cbn zeta. unfold testConnection_call. rewrite Hc.
  rewrite !eval_bind, !exec_bind.
  destruct r as [[e| |]|u]; cbn; try done.
  by case_bool_decide.
Qed.

Lemma provider_testConnection_on_401 :
  let c := N8nClient.create {| N8nClient.baseUrl := "https://n8n.example.com/";
                               N8nClient.apiKey := "wrong" |} in
  let view := {| client := Some c; apiKey := "wrong";
                 baseUrl := "https://n8n.example.com/"; isLoading := false;
                 isConnected := None; connectionError := None |} in
  let w := {| store := ∅; cells := view |} in
  let r : Outcome unit :=
    inl (Axios {| code := Some "ERR_BAD_REQUEST";
                  response := Some {| status := 401;
                                      body := Some {| body_message := Some "unauthorized";
                                                      body_error := None |} |};
                  message := "Request failed with status code 401" |}) in
  client view = Some c
  ∧ connectionError
      (cells (exec (testConnection_settle (N8nClient.testConnection r))
                (exec (testConnection_call view) w)))
    = Some "Authentication failed. Please check your API key.".
Proof.
  intros c view w r.
  assert (client view = Some c) as Hc by reflexivity.
  split; [exact Hc|].
  rewrite (proj1 (proj2 (proj2 (proj2
             (provider_testConnection view c w r Hc))))).
  reflexivity.
Defined.

(** Without a client in the render, [testConnection] answers [false]
    at once, sends nothing, and says so in [connectionError]. *)
Theorem provider_testConnection_without_client view w :
  client view = None →
  eval (testConnection_call view) w = inl false
  ∧ isConnected (cells (exec (testConnection_call view) w)) = Some false
  ∧ connectionError (cells (exec (testConnection_call view) w))
    = Some "No client configured".
Proof. intros Hc. unfold testConnection_call. by rewrite Hc. Qed.

Lemma provider_testConnection_without_client_initial :
  client (initial "http://localhost:5678") = None
  ∧ eval (testConnection_call (initial "http://localhost:5678"))
      (mount "http://localhost:5678" ∅) = inl false.
Proof.
  split; [reflexivity|].
  exact (proj1 (provider_testConnection_without_client
                  (initial "http://localhost:5678") (mount "http://localhost:5678" ∅)
                  eq_refl)).
Defined.

Lemma store_after_setConfig w k u :
  store (exec (setConfig None k u) w)
  = <[STORAGE_BASE_URL := u]> (<[STORAGE_API_KEY := k]> (store w)).
Proof. done. Qed.

(** What [setConfig] saved is what the next start loads: a provider
    mounted on the store after a [setConfig] that went through has the
    same key; it has the same base URL unless that was empty, in which
    case it has the default; and it has a client, made of these two,
    exactly when the key is not empty. *)
Theorem provider_config_round_trip dflt w k u :
  let w1 := exec (setConfig None k u) w in
  let w2 := exec (loadStoredConfig dflt false) (mount dflt (store w1)) in
  let u' := if decide (u = "") then dflt else u in
  eval (setConfig None k u) w = inr tt
  ∧ client (cells w1)
    = Some (N8nClient.create {| N8nClient.baseUrl := u; N8nClient.apiKey := k |})
  ∧ isLoading (cells w1) = false
  ∧ apiKey (cells w2) = k
  ∧ baseUrl (cells w2) = u'
  ∧ client (cells w2)
    = (if decide (k = "") then None
       else Some (N8nClient.create {| N8nClient.baseUrl := u'; N8nClient.apiKey := k |}))
  ∧ isLoading (cells w2) = false.
Proof.
  cbn zeta. split; [done|]. split; [done|]. split; [done|].
  unfold mount. rewrite store_after_setConfig.
  unfold loadStoredConfig, exec, hook_bind. cbn beta.
  cbn [store cells]. unfold getItem.
  rewrite lookup_insert_ne by done. rewrite !lookup_insert_eq.
  unfold orString. cbn [truthy default].
  destruct (decide (k = "")) as [->|Hk], (decide (u = "")) as [->|Hu]; cbn.
  - done.
  - apply String.eqb_neq in Hu. rewrite Hu. cbn. by rewrite ?Hu.
  - apply String.eqb_neq in Hk. rewrite Hk. cbn. by rewrite ?Hk.
  - apply String.eqb_neq in Hk, Hu. rewrite Hk, Hu. cbn. by rewrite ?Hk, ?Hu.
Qed.

(** The provider and the [n8nApi] object do not share the key of the
    base URL.  On a store that has nothing under ["n8n_api_url"], a
    [setConfig] that went through gives the provider a client, and an
    [n8nApi] object initialised on the resulting store has none: its
    requests reject with "API not configured". *)
Theorem provider_config_not_seen_by_n8nApi w k u :
  getItem N8nApiObject.API_URL_KEY (store w) = None →
  let w1 := exec (setConfig None k u) w in
  is_Some (client (cells w1))
  ∧ getItem STORAGE_BASE_URL (store w1) = Some u
  ∧ getItem N8nApiObject.API_KEY_KEY (store w1) = Some k
  ∧ N8nApiObject.isConfigured (N8nApiObject.restarted (store w1)) = false
  ∧ ∀ answer,
      N8nApi.getWorkflows
        (N8nApiObject.isConfigured (N8nApiObject.restarted (store w1))) answer
      = inl N8nApi.notConfigured.
Proof.
  intros Hnone. cbn zeta.
  split; [by eexists|].
  rewrite store_after_setConfig. unfold getItem in *.
  split; [apply lookup_insert_eq|].
  split; [by rewrite lookup_insert_ne, lookup_insert_eq|].
  assert (N8nApiObject.isConfigured
            (N8nApiObject.restarted
               (<[STORAGE_BASE_URL:=u]> (<[STORAGE_API_KEY:=k]> (store w)))) = false) as Hnot.
  { unfold N8nApiObject.restarted, N8nApiObject.isConfigured.
    rewrite ApiObjectProps.initialize_client. cbn [N8nApiObject.failsAt N8nApiObject.store].
    unfold getItem.
    rewrite !lookup_insert_ne by done. by rewrite Hnone. }
  split; [exact Hnot|].
  intros answer. by rewrite Hnot.
Qed.

Lemma provider_config_not_seen_on_empty_store :
  getItem N8nApiObject.API_URL_KEY (store (mount "http://localhost:5678" ∅)) = None
  ∧ N8nApiObject.isConfigured
      (N8nApiObject.restarted
         (store (exec (setConfig None "secret"
                         "https://n8n.example.com")
                   (mount "http://localhost:5678" ∅)))) = false.
Proof.
  assert (getItem N8nApiObject.API_URL_KEY (store (mount "http://localhost:5678" ∅)) = None)
    as Hnone by reflexivity.
  split; [exact Hnone|].
  exact (proj1 (proj2 (proj2 (proj2
    (provider_config_not_seen_by_n8nApi
       (mount "http://localhost:5678" ∅) "secret" "https://n8n.example.com" Hnone))))).
Defined.

(** A [setConfig] the store refuses rejects with the store's error,
    lowers [isLoading], and leaves the key, the base URL and the client
    of the provider as they were; the write that was not refused has
    reached the store all the same. *)
Theorem refused_setConfig_keeps_client which err w k u :
  let w1 := exec (setConfig (Some (which, err)) k u) w in
  eval (setConfig (Some (which, err)) k u) w = inl err
  ∧ client (cells w1) = client (cells w)
  ∧ apiKey (cells w1) = apiKey (cells w)
  ∧ baseUrl (cells w1) = baseUrl (cells w)
  ∧ isLoading (cells w1) = false
  ∧ store w1 = match which with
               | RefusesApiKey => setItem STORAGE_BASE_URL u (store w)
               | RefusesBaseUrl => setItem STORAGE_API_KEY k (store w)
               end.
Proof. by destruct which. Qed.

End ContextProps.

(** ** Testing and keeping the credentials *)

Module ConnectionProps.
Import Js Http AsyncStorage UseN8nConnection.




(** The message follows a fixed order of tests: a timeout wins over a
    status, 401 over 404, a status over the network text, and the
    message of the error, or the fixed text when that is empty or the
    error is not from axios, comes last. *)
Theorem errorMessageOf_order e :
  (code e = Some "ECONNABORTED" → errorMessageOf (Axios e) = "Connection timed out")
  ∧ (code e ≠ Some "ECONNABORTED" → statusOf e = Some 401 →
     errorMessageOf (Axios e) = "Invalid API key")
  ∧ (code e ≠ Some "ECONNABORTED" → statusOf e = Some 404 →
     errorMessageOf (Axios e) = "Invalid n8n instance URL")
  ∧ (code e ≠ Some "ECONNABORTED" → statusOf e ≠ Some 401 → statusOf e ≠ Some 404 →
     errorMessageOf (Axios e)
     = if decide (message e = "Network Error") then "Network error - check the URL"
       else if decide (message e = "") then "Connection failed"
       else message e).
Proof.
  unfold errorMessageOf. split; [|split; [|split]].
  - intros H. by rewrite bool_decide_eq_true_2.
  - intros H1 H2. by rewrite bool_decide_eq_false_2, bool_decide_eq_true_2.
  - intros H1 H2. rewrite bool_decide_eq_false_2 by done.
    rewrite bool_decide_eq_false_2 by (rewrite H2; by intros [=]).
    by rewrite bool_decide_eq_true_2.
  - intros H1 H2 H3. rewrite !bool_decide_eq_false_2 by done.
    destruct (decide (message e = "Network Error")) as [->|Hn]; [done|].
    apply String.eqb_neq in Hn. rewrite Hn. unfold orString. cbn.
    destruct (decide (message e = "")) as [->|Hm]; [done|].
    apply String.eqb_neq in Hm. by rewrite Hm.
Qed.

Lemma errorMessageOf_timeout_with_401 :
  let e := {| code := Some "ECONNABORTED";
              response := Some {| status := 401; body := None |};
              message := "timeout of 10000ms exceeded" |} in
  code e = Some "ECONNABORTED"
  ∧ errorMessageOf (Axios e) = "Connection timed out".
Proof.
  intros e. split; [reflexivity|].
  exact (proj1 (errorMessageOf_order e) eq_refl).
Defined.

(** What a restart finds. *)
Lemma restarted_cells parse s :
  cells (restarted parse s)
  = match getItem CREDENTIALS_KEY s with
    | Some stored =>
        if truthy (Some stored)
        then match parse stored with
             | inr c => {| isConnected := false; isLoading := false; isTesting := false;
                           error := None; credentials := Some c |}
             | inl _ => {| isConnected := false; isLoading := false; isTesting := false;
                           error := Some "Failed to load saved credentials";
                           credentials := None |}
             end
        else {| isConnected := false; isLoading := false; isTesting := false;
                error := None; credentials := None |}
    | None => {| isConnected := false; isLoading := false; isTesting := false;
                 error := None; credentials := None |}
    end.
Proof.
  unfold restarted, loadCredentials, exec. cbn beta. cbn [store].
  destruct (getItem CREDENTIALS_KEY s) as [stored|]; [|done].
  destruct (truthy (Some stored)); [|done].
  by destruct (parse stored).
Qed.

(** A test answered with status 200, the credentials saved: it
    answers [true], the hook is connected and holds the credentials.
    After a restart the hook loads the same credentials from the store,
    provided JSON reads back what it wrote, and is not connected until
    they are tested again. *)
Theorem successful_test_survives_restart stringify parse c w :
  parse (stringify c) = inr c →
  stringify c ≠ "" →
  let w2 := exec (testConnection_settle stringify c (inr 200) None)
              (exec testConnection_call w) in
  let w3 := restarted parse (store w2) in
  eval (testConnection_settle stringify c (inr 200) None) (exec testConnection_call w) = true
  ∧ isConnected (cells w2) = true
  ∧ isTesting (cells w2) = false
  ∧ error (cells w2) = None
  ∧ credentials (cells w2) = Some c
  ∧ credentials (cells w3) = Some c
  ∧ isLoading (cells w3) = false
  ∧ isConnected (cells w3) = false.
Proof.
  intros Hjson Hne. cbn zeta.
  repeat (split; [done|]).
  rewrite restarted_cells.
  assert (getItem CREDENTIALS_KEY
            (store (exec (testConnection_settle stringify c (inr 200) None)
                      (exec testConnection_call w)))
          = Some (stringify c)) as ->.
  { cbn. unfold getItem, setItem. apply lookup_insert_eq. }
  assert (truthy (Some (stringify c)) = true) as ->.
  { cbn. apply negb_true_iff. by apply String.eqb_neq. }
  by rewrite Hjson.
Qed.

Lemma successful_test_survives_restart_example :
  let c := {| instanceUrl := "https://n8n.example.com/"; apiKey := "secret" |} in
  let stringify := λ _ : N8nCredentials, "{}" in
  let parse := λ _ : string, (inr c : Outcome N8nCredentials) in
  parse (stringify c) = inr c
  ∧ stringify c ≠ ""
  ∧ credentials (cells (restarted parse
       (store (exec (testConnection_settle stringify c (inr 200) None)
                 (exec testConnection_call {| store := ∅; cells := initial |})))))
    = Some c.
Proof.
  intros c stringify parse.
  assert (parse (stringify c) = inr c) as Hj by reflexivity.
  assert (stringify c ≠ "") as Hne by discriminate.
  split; [exact Hj|]. split; [exact Hne|].
  exact (proj1 (proj2 (proj2 (proj2 (proj2 (proj2
    (successful_test_survives_restart stringify parse c
       {| store := ∅; cells := initial |} Hj Hne))))))).
Defined.

(** A response that went through with a status other than 200 makes
    the test answer [false] and touches nothing: the hook stays as the
    call left it, with [isTesting] up and no error. *)
Theorem test_with_other_status_keeps_testing stringify c w status persistFails :
  status ≠ 200 →
  let w1 := exec testConnection_call w in
  testConnection_settle stringify c (inr status) persistFails w1 = (false, w1)
  ∧ isTesting (cells w1) = true
  ∧ error (cells w1) = None.
Proof.
  intros Hs. cbn zeta. unfold testConnection_settle.
  apply Nat.eqb_neq in Hs. by rewrite Hs.
Qed.

Lemma test_with_other_status_204 :
  let c := {| instanceUrl := "https://n8n.example.com"; apiKey := "secret" |} in
  let w1 := exec testConnection_call {| store := ∅; cells := initial |} in
  204 ≠ 200
  ∧ testConnection_settle (λ _, "{}") c (inr 204) None w1 = (false, w1).
Proof.
  intros c w1.
  assert (204 ≠ 200) as Hs by discriminate.
  split; [exact Hs|].
  exact (proj1 (test_with_other_status_keeps_testing (λ _, "{}") c
                  {| store := ∅; cells := initial |} 204 None Hs)).
Defined.

(** One trailing slash on the instance URL makes no difference to the
    request: with it or without it the same workflows endpoint is
    asked. *)
Theorem requestUrl_ignores_trailing_slash u k :
  (∀ t, u ≠ t +:+ "/") →
  requestUrl {| instanceUrl := u +:+ "/"; apiKey := k |}
  = requestUrl {| instanceUrl := u; apiKey := k |}
  ∧ requestUrl {| instanceUrl := u; apiKey := k |} = u +:+ "/api/v1/workflows".
Proof.
  intros Hno. unfold requestUrl. cbn.
  by rewrite ClientProps.strip_app_slash, ClientProps.strip_without_slash.
Qed.

Lemma requestUrl_localhost :
  (∀ t, "http://localhost:5678" ≠ t +:+ "/")
  ∧ requestUrl {| instanceUrl := "http://localhost:5678/"; apiKey := "secret" |}
    = "http://localhost:5678/api/v1/workflows".
Proof.
  assert (∀ t, "http://localhost:5678" ≠ t +:+ "/") as Hno.
  { intros t Ht.
    assert (N8nClient.stripTrailingSlash "http://localhost:5678" = t) as <-
      by (rewrite Ht; apply ClientProps.strip_app_slash).
    cbn in Ht. discriminate Ht. }
  split; [exact Hno|].
  destruct (requestUrl_ignores_trailing_slash "http://localhost:5678" "secret" Hno)
    as [H1 H2].
  change (requestUrl {| instanceUrl := "http://localhost:5678" +:+ "/"; apiKey := "secret" |}
          = "http://localhost:5678" +:+ "/api/v1/workflows").
  by rewrite H1, H2.
Defined.

(** [disconnect] forgets the credentials for good: the hook is reset,
    the store no longer has them, and a restart finds none.  When the
    store refuses, only [error] changes. *)
Theorem disconnect_forgets parse w :
  (let w1 := exec (disconnect false) w in
   cells w1 = {| isConnected := false; isLoading := false; isTesting := false;
                 error := None; credentials := None |}
   ∧ getItem CREDENTIALS_KEY (store w1) = None
   ∧ credentials (cells (restarted parse (store w1))) = None
   ∧ error (cells (restarted parse (store w1))) = None)
  ∧ (let w2 := exec (disconnect true) w in
     store w2 = store w
     ∧ credentials (cells w2) = credentials (cells w)
     ∧ isConnected (cells w2) = isConnected (cells w)
     ∧ error (cells w2) = Some "Failed to disconnect").
Proof.
  cbn zeta. split; [|done].
  split; [done|].
  assert (getItem CREDENTIALS_KEY (store (exec (disconnect false) w)) = None) as Hnone.
  { cbn. unfold getItem, removeItem. apply lookup_delete_eq. }
  split; [exact Hnone|].
  by rewrite restarted_cells, Hnone.
Qed.

End ConnectionProps.

(** ** Formatting *)

Module FormatProps.
Import Format.

Lemma roundSeconds_sixty r : (59500 ≤ r < 60000)%Z → roundSeconds r = 60%Z.
Proof.
  intros Hr. unfold roundSeconds. symmetry.
  apply (Z.div_unique_pos _ _ _ (r + 500 - 60000)%Z); lia.
Qed.

Lemma roundSeconds_bounds r : (0 ≤ r < 60000)%Z → (0 ≤ roundSeconds r ≤ 60)%Z.
Proof.
  intros Hr. unfold roundSeconds. split.
  - apply Z.div_pos; lia.
  - assert ((r + 500) `div` 1000 < 61)%Z; [|lia].
    apply Z.div_lt_upper_bound; lia.
Qed.

(** Seconds are rounded, minutes are not, so the seconds shown can be
    60: a duration in the last half second of a minute reads "60s"
    under a minute and "Nm 60s" above, not the next minute. *)
Theorem formatDuration_shows_sixty_seconds :
  (∀ d, (59500 ≤ d < 60000)%Z → formatDuration d = "60s")
  ∧ (∀ m r, (1 ≤ m < 60)%Z → (59500 ≤ r < 60000)%Z →
            formatDuration (m * 60000 + r) = pretty m +:+ "m 60s").
Proof.
  split.
  - intros d Hd. unfold formatDuration.
    rewrite (proj2 (Z.ltb_ge d 0)) by lia.
    rewrite (proj2 (Z.ltb_ge d 1000)) by lia.
    rewrite (proj2 (Z.ltb_lt d 60000)) by lia.
    by rewrite roundSeconds_sixty.
  - intros m r Hm Hr. unfold formatDuration.
    rewrite (proj2 (Z.ltb_ge _ 0)) by lia.
    rewrite (proj2 (Z.ltb_ge _ 1000)) by lia.
    rewrite (proj2 (Z.ltb_ge _ 60000)) by lia.
    rewrite (proj2 (Z.ltb_lt _ 3600000)) by lia.
    assert ((m * 60000 + r) `div` 60000 = m)%Z as ->.
    { symmetry. apply (Z.div_unique_pos _ _ _ r); lia. }
    assert ((m * 60000 + r) `mod` 60000 = r)%Z as ->.
    { symmetry. apply (Z.mod_unique_pos _ _ m); lia. }
    by rewrite roundSeconds_sixty.
Qed.

Lemma formatDuration_one_minute_sixty :
  (1 ≤ 1 < 60)%Z ∧ (59500 ≤ 59500 < 60000)%Z
  ∧ formatDuration 119500 = "1m 60s".
Proof.
  assert (1 ≤ 1 < 60)%Z as Hm by lia.
  assert (59500 ≤ 59500 < 60000)%Z as Hr by lia.
  split; [exact Hm|]. split; [exact Hr|].
  exact (proj2 formatDuration_shows_sixty_seconds 1%Z 59500%Z Hm Hr).
Defined.

(** Between a minute and an hour the duration reads "Mm Ss" with M
    from 1 to 59 and S from 0 to 60; from an hour on it reads "Hh Mm"
    with H at least 1 and M from 0 to 59, the seconds dropped. *)
Theorem formatDuration_fields d :
  ((60000 ≤ d < 3600000)%Z →
   ∃ m s, formatDuration d = pretty m +:+ "m " +:+ pretty s +:+ "s"
          ∧ (1 ≤ m ≤ 59)%Z ∧ (0 ≤ s ≤ 60)%Z
          ∧ (m * 60000 ≤ d < (m + 1) * 60000)%Z)
  ∧ ((3600000 ≤ d)%Z →
     ∃ h m, formatDuration d = pretty h +:+ "h " +:+ pretty m +:+ "m"
            ∧ (1 ≤ h)%Z ∧ (0 ≤ m ≤ 59)%Z
            ∧ (h * 3600000 + m * 60000 ≤ d < h * 3600000 + (m + 1) * 60000)%Z).
Proof.
  split; intros Hd; unfold formatDuration.
  - rewrite (proj2 (Z.ltb_ge d 0)) by lia.
    rewrite (proj2 (Z.ltb_ge d 1000)) by lia.
    rewrite (proj2 (Z.ltb_ge d 60000)) by lia.
    rewrite (proj2 (Z.ltb_lt d 3600000)) by lia.
    exists (d `div` 60000)%Z, (roundSeconds (d `mod` 60000))%Z.
    split; [done|].
    pose proof (Z.div_mod d 60000 ltac:(lia)) as Hdm.
    pose proof (Z.mod_pos_bound d 60000 ltac:(lia)) as Hmod.
    split; [|split].
    + split.
      * apply Z.div_le_lower_bound; lia.
      * assert (d `div` 60000 < 60)%Z; [|lia].
        apply Z.div_lt_upper_bound; lia.
    + by apply roundSeconds_bounds.
    + lia.
  - rewrite (proj2 (Z.ltb_ge d 0)) by lia.
    rewrite (proj2 (Z.ltb_ge d 1000)) by lia.
    rewrite (proj2 (Z.ltb_ge d 60000)) by lia.
    rewrite (proj2 (Z.ltb_ge d 3600000)) by lia.
    exists (d `div` 3600000)%Z, ((d `mod` 3600000) `div` 60000)%Z.
    split; [done|].
    pose proof (Z.div_mod d 3600000 ltac:(lia)) as Hdm.
    pose proof (Z.mod_pos_bound d 3600000 ltac:(lia)) as Hmod.
    pose proof (Z.div_mod (d `mod` 3600000) 60000 ltac:(lia)) as Hdm'.
    pose proof (Z.mod_pos_bound (d `mod` 3600000) 60000 ltac:(lia)) as Hmod'.
    split; [|split].
    + apply Z.div_le_lower_bound; lia.
    + split.
      * apply Z.div_pos; lia.
      * assert ((d `mod` 3600000) `div` 60000 < 60)%Z; [|lia].
        apply Z.div_lt_upper_bound; lia.
    + lia.
Qed.

Lemma formatDuration_fields_ninety_minutes :
  (3600000 ≤ 5400000)%Z ∧ formatDuration 5400000 = "1h 30m".
Proof.
  assert (3600000 ≤ 5400000)%Z as Hd by lia.
  split; [exact Hd|].
  destruct (proj2 (formatDuration_fields 5400000) Hd) as (h & m & _ & _ & _ & _).
  reflexivity.
Defined.

Lemma pretty_negative_not_zero d s : (d < 0)%Z → pretty d +:+ s ≠ "0" +:+ s.
Proof.
  intros Hd. destruct d as [|p|p]; [lia|lia|].
  unfold pretty, pretty_Z. cbn. discriminate.
Qed.

(** The two screens format a duration alike as long as it is not
    negative.  When the stop time lies before the start time the
    detail screen shows "0ms" and the list screen shows the negative
    number of milliseconds. *)
Theorem formatDuration_screens_agree d :
  ((0 ≤ d)%Z → formatDuration_list d = formatDuration d)
  ∧ ((d < 0)%Z →
     formatDuration d = "0ms"
     ∧ formatDuration_list d = pretty d +:+ "ms"
     ∧ formatDuration_list d ≠ formatDuration d).
Proof.
  split; intros Hd; unfold formatDuration, formatDuration_list.
  - by rewrite (proj2 (Z.ltb_ge d 0)) by lia.
  - rewrite (proj2 (Z.ltb_lt d 0)) by lia.
    rewrite (proj2 (Z.ltb_lt d 1000)) by lia.
    split; [done|]. split; [done|].
    by apply (pretty_negative_not_zero d "ms").
Qed.

Lemma formatDuration_screens_on_negative :
  (-5 < 0)%Z
  ∧ formatDuration (diffMs 1000 (Some 995%Z) 2000) = "0ms"
  ∧ formatDuration_list (diffMs 1000 (Some 995%Z) 2000) = "-5ms".
Proof.
  assert (-5 < 0)%Z as Hd by lia.
  split; [exact Hd|].
  destruct (proj2 (formatDuration_screens_agree (-5)) Hd) as (H1 & H2 & _).
  split; [exact H1|exact H2].
Defined.



End FormatProps.
